(** * ofblockmeshdicthelper: a shallow embedding of [ofblockmeshdicthelper/__init__.py]

    The Python module builds an OpenFOAM [blockMeshDict] in memory.  Its
    objects are mutable and shared by reference: the vertex registry maps
    several names to one [Vertex] instance after [reduce_vertex], and a
    [Boundary] holds a reference to a Python list.  The embedding keeps an
    explicit object store for these two kinds of object and passes the state
    through every method.

    Numbers (coordinates, the unit scale) are modelled by the rationals that
    the Python literals denote; only comparison and storage of numbers is
    used, never arithmetic.  The renderings of a number as text are left
    open, and each of them may raise. *)

From Stdlib Require Import Ascii String QArith.
From stdpp Require Import base option list gmap strings pretty sorting.

Local Open Scope string_scope.
Local Open Scope list_scope.

(** ** Exceptions and results *)

(** The Python exceptions the module can raise.  [OverflowError] and
    [ValueError] come from rendering a number: an integer beyond the range
    of floats under a float format, an integer beyond the interpreter's
    digit limit under [str] or ['{:d}']; [ValueError] is also what
    [Template.substitute] raises for a malformed placeholder.  [Dangling]
    is not a Python exception: it marks a reference outside the object
    store, which no sequence of calls produces (see [store_ok]). *)
Inductive exn :=
| KeyError (key : string)
| IndexError
| AttributeError (attr : string)
| OverflowError
| ValueError (msg : string)
| Dangling.

Inductive result (A : Type) :=
| Ok (a : A)
| Raise (e : exn).
Arguments Ok {A} a.
Arguments Raise {A} e.

#[global] Instance result_ret : MRet result := fun A a => Ok a.
#[global] Instance result_bind : MBind result := fun A B f r =>
  match r with
  | Ok a => f a
  | Raise e => Raise e
  end.
#[global] Instance result_fmap : FMap result := fun A B f r =>
  match r with
  | Ok a => Ok (f a)
  | Raise e => Raise e
  end.

Definition or_raise {A} (e : exn) (o : option A) : result A :=
  match o with
  | Some a => Ok a
  | None => Raise e
  end.

Definition is_Ok {A} (r : result A) : Prop := ∃ a, r = Ok a.

(** ** Python containers *)

(** [l[i]] on a Python list or tuple: negative indices count from the end,
    anything outside [-len, len) raises [IndexError]. *)
Definition py_getitem {A} (l : list A) (i : Z) : result A :=
  let n := Z.of_nat (length l) in
  let j := if (i <? 0)%Z then (i + n)%Z else i in
  if ((0 <=? j) && (j <? n))%Z
  then or_raise IndexError (l !! Z.to_nat j)
  else Raise IndexError.

(** A [dict] whose iteration order is observed: keys in insertion order,
    assignment to an existing key keeps its position. *)
Module odict.
Definition t (V : Type) := list (string * V).

Fixpoint get {V} (d : t V) (k : string) : option V :=
  match d with
  | [] => None
  | (k', v) :: d' => if decide (k' = k) then Some v else get d' k
  end.

Fixpoint set {V} (d : t V) (k : string) (v : V) : t V :=
  match d with
  | [] => [(k, v)]
  | (k', v') :: d' =>
      if decide (k' = k) then (k', v) :: d' else (k', v') :: set d' k v
  end.

Definition keys {V} (d : t V) : list string := d.*1.
Definition values {V} (d : t V) : list V := d.*2.

(** [d[k]] *)
Definition getitem {V} (d : t V) (k : string) : result V :=
  or_raise (KeyError k) (get d k).
End odict.

(** [tmpl.format(arg)] for a template with one [{}] field. *)
Fixpoint str_format1 (tmpl arg : string) : string :=
  match tmpl with
  | String "{"%char (String "}"%char rest) => arg +:+ rest
  | String c rest => String c (str_format1 rest arg)
  | EmptyString => EmptyString
  end.

(** [sep.join(l)] *)
Fixpoint str_join (sep : string) (l : list string) : string :=
  match l with
  | [] => ""
  | [s] => s
  | s :: l' => s +:+ sep +:+ str_join sep l'
  end.

(** Comparison of numbers. *)
Definition num_eq (a b : Q) : bool := Qeq_bool a b.
Definition num_lt (a b : Q) : bool := negb (Qle_bool b a).

(** [a < b] on 3-tuples of numbers: the first position where the tuples
    differ decides; equal tuples are not less. *)
Definition tuple3_lt (a b : Q * Q * Q) : bool :=
  let '(a0, a1, a2) := a in
  let '(b0, b1, b2) := b in
  if negb (num_eq a0 b0) then num_lt a0 b0
  else if negb (num_eq a1 b1) then num_lt a1 b1
  else if negb (num_eq a2 b2) then num_lt a2 b2
  else false.

(** [a == b] on 3-tuples of numbers. *)
Definition tuple3_eq (a b : Q * Q * Q) : bool :=
  let '(a0, a1, a2) := a in
  let '(b0, b1, b2) := b in
  num_eq a0 b0 && num_eq a1 b1 && num_eq a2 b2.

(** ** [sorted]

    CPython's list sort on a list shorter than 64 elements: [count_run]
    finds the run the list starts with (reversing it when it is strictly
    descending), then [binarysort] inserts the remaining elements one by one
    at the position a binary search gives.  Longer lists are cut into runs of
    at least [minrun] elements that are merged; that part is not modelled and
    the insertion is applied to the whole list, which gives the same list
    whenever [lt] is a strict weak order.  [lt x y] is [x.__lt__(y)], the only
    comparison the sort calls. *)
Section Sorted.
Context {A : Type} (lt : A → A → bool).

(** length of the rest of an ascending run after [prev] *)
Fixpoint run_ascending (prev : A) (l : list A) : nat :=
  match l with
  | [] => 0
  | x :: l' => if lt x prev then 0 else S (run_ascending x l')
  end.

(** length of the rest of a strictly descending run after [prev] *)
Fixpoint run_descending (prev : A) (l : list A) : nat :=
  match l with
  | [] => 0
  | x :: l' => if lt x prev then S (run_descending x l') else 0
  end.

(** [count_run]: length of the leading run, and whether it descends *)
Definition count_run (l : list A) : nat * bool :=
  match l with
  | [] => (0, false)
  | [_] => (1, false)
  | a :: b :: l' =>
      if lt b a then (2 + run_descending b l', true)
      else (2 + run_ascending b l', false)
  end.

(** the binary search of [binarysort]: [pivot] goes at the returned
    position of the sorted prefix [pre]; invariant [l <= r <= length pre] *)
Fixpoint bisect (fuel : nat) (pivot : A) (pre : list A) (l r : nat) : nat :=
  match fuel with
  | 0 => l
  | S fuel' =>
      if decide (l < r) then
        let p := l + (r - l) / 2 in
        match pre !! p with
        | Some x =>
            if lt pivot x then bisect fuel' pivot pre l p
            else bisect fuel' pivot pre (p + 1) r
        | None => l
        end
      else l
  end.

Definition insert_at (i : nat) (x : A) (l : list A) : list A :=
  take i l ++ x :: drop i l.

(** [binarysort(lo, hi, start)]: [pre] is the sorted part [lo, start) *)
Fixpoint binarysort (pre rest : list A) : list A :=
  match rest with
  | [] => pre
  | pivot :: rest' =>
      let i := bisect (length pre) pivot pre 0 (length pre) in
      binarysort (insert_at i pivot pre) rest'
  end.

Definition sorted (l : list A) : list A :=
  if decide (length l < 2) then l
  else
    let '(n, descending) := count_run l in
    let run := take n l in
    binarysort (if descending then reverse run else run) (drop n l).
End Sorted.

(** [for a in l: s = body(s, a)], stopping at the first exception *)
Fixpoint for_each {S A} (body : S → A → result S) (s : S) (l : list A)
  : result S :=
  match l with
  | [] => Ok s
  | a :: l' => s' ← body s a; for_each body s' l'
  end.

Definition nl : string := String (ascii_of_nat 10) "".

(** ** The classes *)

(** References into the object store. *)
Abbreviation loc := nat.

Module Vertex.
(** [index] is [None] until [assign_vertexid] numbers the vertex. *)
Record t := mk {
  x : Q;
  y : Q;
  z : Q;
  name : string;
  alias : gset string;
  index : option nat
}.

(** [__init__]: the [index] argument is ignored *)
Definition init (x y z : Q) (name : string) : t :=
  mk x y z name {[ name ]} None.

Definition set_alias (a : gset string) (self : t) : t :=
  mk (x self) (y self) (z self) (name self) a (index self).

Definition set_index (i : option nat) (self : t) : t :=
  mk (x self) (y self) (z self) (name self) (alias self) i.

(** [__lt__]: the right-hand tuple is [(rhs.z, rhs.y, rhs.z)] *)
Definition lt (self rhs : t) : bool :=
  tuple3_lt (z self, y self, x self) (z rhs, y rhs, z rhs).

(** [__eq__] *)
Definition eq (self rhs : t) : bool :=
  tuple3_eq (z self, y self, x self) (z rhs, y rhs, z rhs).

Section Format.
(** ['{:18.15g}'.format], which may raise, and the iteration order of a
    [set] are left open. *)
Variable format_g : Q → result string.
Variable set_iter : gset string → list string.

Definition str_index (i : option nat) : string :=
  match i with
  | None => "None"
  | Some i => pretty i
  end.

Definition format (self : t) : result string :=
  let com := str_index (index self) +:+ " " +:+ name self in
  let com :=
    if decide (1 < size (alias self))
    then com +:+ " : " +:+ str_join " " (set_iter (alias self))
    else com in
  sx ← format_g (x self);
  sy ← format_g (y self);
  sz ← format_g (z self);
  Ok ("( " +:+ sx +:+ " " +:+ sy +:+ " " +:+ sz +:+ " )  // " +:+ com).
End Format.
End Vertex.

Module Point.
Record t := mk { x : Q; y : Q; z : Q }.
End Point.

Module Sphere.
Record t := mk { name : string; center : Point.t; radius : Q }.
End Sphere.

Module Face.
Record t := mk { vnames : list string; name : string }.
End Face.

Module SimpleGradingElement.
(** a single expansion ratio, or a sequence of
    (direction ratio, cell ratio, expansion ratio) *)
Inductive t :=
| Ratio (d : Q)
| Multi (d : list (Q * Q * Q)).
End SimpleGradingElement.

Module SimpleGrading.
Record t := mk {
  x : SimpleGradingElement.t;
  y : SimpleGradingElement.t;
  z : SimpleGradingElement.t
}.

(** [SimpleGrading(1, 1, 1)], the default of [HexBlock] and
    [add_hexblock] *)
Definition default : t :=
  mk (SimpleGradingElement.Ratio 1) (SimpleGradingElement.Ratio 1)
     (SimpleGradingElement.Ratio 1).
End SimpleGrading.

(** The [index] argument of [HexBlock.face]: a keyword or a number. *)
Inductive face_selector :=
| Kw (kw : string)
| Ix (i : Z).

Module HexBlock.
Record t := mk {
  vnames : list string;
  cells : list Z;
  name : string;
  grading : SimpleGrading.t
}.

Definition kw_to_index : odict.t Z :=
  [ ("w", 0); ("xm", 0); ("-100", 0);
    ("e", 1); ("xp", 1); ("100", 1);
    ("s", 2); ("ym", 2); ("0-10", 2);
    ("n", 3); ("yp", 3); ("010", 3);
    ("b", 4); ("zm", 4); ("00-1", 4);
    ("t", 5); ("zp", 5); ("001", 5) ]%Z.

Definition index_to_vertex : list (list Z) :=
  [ [0; 4; 7; 3];
    [1; 2; 6; 5];
    [0; 1; 5; 4];
    [2; 3; 7; 6];
    [0; 3; 2; 1];
    [4; 5; 6; 7] ]%Z.

Definition index_to_defaultsuffix : list string :=
  [ "f-{}-w";
    "f-{}-n";
    "f-{}-s";
    "f-{}-n";
    "f-{}-b";
    "f-{}-t" ].

Definition face (self : t) (index : face_selector) (name : option string)
  : result Face.t :=
  index ← match index with
          | Kw kw => odict.getitem kw_to_index kw
          | Ix i => Ok i
          end;
  corners ← py_getitem index_to_vertex index;
  vnames ← mapM (py_getitem (vnames self)) corners;
  name ← match name with
         | None =>
             tmpl ← py_getitem index_to_defaultsuffix index;
             Ok (str_format1 tmpl (HexBlock.name self))
         | Some name => Ok name
         end;
  Ok (Face.mk vnames name).
End HexBlock.

(** [ArcEdge] and [SplineEdge] *)
Inductive Edge :=
| ArcEdge (vnames : list string) (name : string) (interVertex : Point.t)
| SplineEdge (vnames : list string) (name : string) (points : list Point.t).

Module Boundary.
(** [faces] refers to a Python list in the object store. *)
Record t := mk { type_ : string; name : string; faces : loc }.
End Boundary.

(** The value [{'face': face, 'proj_geom': name}] of a [proj_faces] entry. *)
Record ProjFace := mkProjFace { pf_face : Face.t; pf_proj_geom : string }.

Module BlockMeshDict.
(** [vertices] is only looked up and assigned by key, never iterated;
    the other registries keep their insertion order.  [valid_vertices]
    does not exist before [assign_vertexid] has run. *)
Record t := mk {
  convert_to_meters : Q;
  vertices : gmap string loc;
  blocks : odict.t HexBlock.t;
  edges : odict.t Edge;
  boundaries : odict.t Boundary.t;
  geometries : odict.t Sphere.t;
  proj_faces : odict.t ProjFace;
  valid_vertices : option (list loc)
}.

(** [__init__] *)
Definition init : t := mk 1 ∅ [] [] [] [] [] None.

Definition set_convert_to_meters (c : Q) (d : t) : t :=
  mk c (vertices d) (blocks d) (edges d) (boundaries d) (geometries d)
     (proj_faces d) (valid_vertices d).
Definition set_vertices (v : gmap string loc) (d : t) : t :=
  mk (convert_to_meters d) v (blocks d) (edges d) (boundaries d)
     (geometries d) (proj_faces d) (valid_vertices d).
Definition set_blocks (b : odict.t HexBlock.t) (d : t) : t :=
  mk (convert_to_meters d) (vertices d) b (edges d) (boundaries d)
     (geometries d) (proj_faces d) (valid_vertices d).
Definition set_edges (e : odict.t Edge) (d : t) : t :=
  mk (convert_to_meters d) (vertices d) (blocks d) e (boundaries d)
     (geometries d) (proj_faces d) (valid_vertices d).
Definition set_boundaries (b : odict.t Boundary.t) (d : t) : t :=
  mk (convert_to_meters d) (vertices d) (blocks d) (edges d) b
     (geometries d) (proj_faces d) (valid_vertices d).
Definition set_geometries (g : odict.t Sphere.t) (d : t) : t :=
  mk (convert_to_meters d) (vertices d) (blocks d) (edges d)
     (boundaries d) g (proj_faces d) (valid_vertices d).
Definition set_proj_faces (p : odict.t ProjFace) (d : t) : t :=
  mk (convert_to_meters d) (vertices d) (blocks d) (edges d)
     (boundaries d) (geometries d) p (valid_vertices d).
Definition set_valid_vertices (v : option (list loc)) (d : t) : t :=
  mk (convert_to_meters d) (vertices d) (blocks d) (edges d)
     (boundaries d) (geometries d) (proj_faces d) v.
End BlockMeshDict.

(** ** The state

    [vertex_objs] holds the [Vertex] instances and [list_objs] the Python
    lists of faces, both addressed by position; [stdout] collects the lines
    written by [print]; [self] is the [BlockMeshDict] under construction. *)
Record World := mkWorld {
  vertex_objs : list Vertex.t;
  list_objs : list (list Face.t);
  stdout : list string;
  self : BlockMeshDict.t
}.

Definition set_vertex_objs (o : list Vertex.t) (w : World) : World :=
  mkWorld o (list_objs w) (stdout w) (self w).
Definition set_list_objs (o : list (list Face.t)) (w : World) : World :=
  mkWorld (vertex_objs w) o (stdout w) (self w).
Definition set_stdout (o : list string) (w : World) : World :=
  mkWorld (vertex_objs w) (list_objs w) o (self w).
Definition set_self (d : BlockMeshDict.t) (w : World) : World :=
  mkWorld (vertex_objs w) (list_objs w) (stdout w) d.

(** The two [faces=[]] defaults are evaluated once, when the module is
    loaded: one list for [Boundary.__init__], one for [add_boundary]. *)
Definition Boundary_init_default_faces : loc := 0.
Definition add_boundary_default_faces : loc := 1.

(** The state after [import ofblockmeshdicthelper] and [BlockMeshDict()]. *)
Definition fresh_world : World :=
  mkWorld [] [ []; [] ] [] BlockMeshDict.init.

(** A method: it reads and updates the state, and returns or raises.  A
    raised exception ends the run; the state a method leaves behind when it
    raises half way is not kept. *)
Definition M (A : Type) : Type := World → result (A * World).

Definition M_ret {A} (a : A) : M A := fun w => Ok (a, w).
Definition M_bind {A B} (m : M A) (k : A → M B) : M B := fun w =>
  match m w with
  | Ok (a, w') => k a w'
  | Raise e => Raise e
  end.

Notation "'do' x <- m ;; k" := (M_bind m (fun x => k))
  (at level 10, x name, m at level 99, k at level 200).
Notation "'do' ' p <- m ;; k" := (M_bind m (fun x => let 'p := x in k))
  (at level 10, p pattern, m at level 99, k at level 200).
Notation "'run' m ;; k" := (M_bind m (fun _ => k))
  (at level 10, m at level 99, k at level 200).

(** [print(line)] *)
Definition print (line : string) (w : World) : World :=
  set_stdout (stdout w ++ [line]) w.

(** [Vertex(x, y, z, name)]: a new instance in the store *)
Definition new_Vertex (x y z : Q) (name : string) : M loc := fun w =>
  Ok (length (vertex_objs w),
      set_vertex_objs (vertex_objs w ++ [Vertex.init x y z name]) w).

(** [[]] or [[f1, ..., fn]] written by the caller: a new list in the store *)
Definition new_list (faces : list Face.t) : M loc := fun w =>
  Ok (length (list_objs w), set_list_objs (list_objs w ++ [faces]) w).

(** [Boundary(type_, name, faces=[])] *)
Definition new_Boundary (type_ name : string) (faces : option loc)
  : Boundary.t :=
  Boundary.mk type_ name (default Boundary_init_default_faces faces).

(** [Boundary.add_face]: [self.faces.append(face)] *)
Definition Boundary_add_face (b : Boundary.t) (face : Face.t) : M unit :=
  fun w =>
    l ← or_raise Dangling (list_objs w !! Boundary.faces b);
    Ok (tt, set_list_objs (<[Boundary.faces b := l ++ [face]]> (list_objs w)) w).

(** the list [b.faces] refers to *)
Definition Boundary_faces (b : Boundary.t) (w : World) : option (list Face.t) :=
  list_objs w !! Boundary.faces b.

(** ** Methods of [BlockMeshDict] *)

Definition metricsym_to_conversion : odict.t Q :=
  [ ("km", 1000);
    ("m", 1);
    ("cm", 0.01);
    ("mm", 0.001);
    ("um", 1e-6);
    ("nm", 1e-9);
    ("A", 1e-10);
    ("Angstrom", 1e-10) ]%Q.

Definition set_metric (metric : string) : M unit := fun w =>
  c ← odict.getitem metricsym_to_conversion metric;
  Ok (tt, set_self (BlockMeshDict.set_convert_to_meters c (self w)) w).

Definition add_vertex (vertex : loc) (name : string) : M loc := fun w =>
  let w' :=
    if decide (is_Some (BlockMeshDict.vertices (self w) !! name))
    then print ("Vertex " +:+ name +:+ " has already been assigned") w
    else set_self (BlockMeshDict.set_vertices
                     (<[name := vertex]> (BlockMeshDict.vertices (self w)))
                     (self w)) w in
  r ← or_raise (KeyError name) (BlockMeshDict.vertices (self w') !! name);
  Ok (r, w').

Definition del_vertex (name : string) : M unit := fun w =>
  _ ← or_raise (KeyError name) (BlockMeshDict.vertices (self w) !! name);
  Ok (tt, set_self (BlockMeshDict.set_vertices
                      (delete name (BlockMeshDict.vertices (self w)))
                      (self w)) w).

(** the body of the loop of [reduce_vertex]; [v] is the instance of
    [name1] *)
Definition reduce_vertex_body (v : loc) (w : World) (n : string)
  : result World :=
  r ← or_raise (KeyError n) (BlockMeshDict.vertices (self w) !! n);
  robj ← or_raise Dangling (vertex_objs w !! r);
  vobj ← or_raise Dangling (vertex_objs w !! v);
  let vobj' := Vertex.set_alias (Vertex.alias vobj ∪ Vertex.alias robj) vobj in
  Ok (set_self (BlockMeshDict.set_vertices
                  (<[n := v]> (BlockMeshDict.vertices (self w))) (self w))
        (set_vertex_objs (<[v := vobj']> (vertex_objs w)) w)).

Definition reduce_vertex (name1 : string) (names : list string) : M unit :=
  fun w =>
    v ← or_raise (KeyError name1) (BlockMeshDict.vertices (self w) !! name1);
    w' ← for_each (reduce_vertex_body v) w names;
    Ok (tt, w').

Definition add_hexblock (vnames : list string) (cells : list Z)
    (name : string) (grading : option SimpleGrading.t) : M HexBlock.t :=
  fun w =>
    let b := HexBlock.mk vnames cells name
               (default SimpleGrading.default grading) in
    Ok (b, set_self (BlockMeshDict.set_blocks
                       (odict.set (BlockMeshDict.blocks (self w)) name b)
                       (self w)) w).

Definition add_arcedge (vnames : list string) (name : string)
    (interVertex : Point.t) : M Edge := fun w =>
  let e := ArcEdge vnames name interVertex in
  Ok (e, set_self (BlockMeshDict.set_edges
                     (odict.set (BlockMeshDict.edges (self w)) name e)
                     (self w)) w).

Definition add_splineedge (vnames : list string) (name : string)
    (points : list Point.t) : M Edge := fun w =>
  let e := SplineEdge vnames name points in
  Ok (e, set_self (BlockMeshDict.set_edges
                     (odict.set (BlockMeshDict.edges (self w)) name e)
                     (self w)) w).

(** [add_boundary(type_, name, faces=[])]: the list it received, or its own
    default list, is handed on to [Boundary] *)
Definition add_boundary (type_ name : string) (faces : option loc)
  : M Boundary.t := fun w =>
  let b := new_Boundary type_ name
             (Some (default add_boundary_default_faces faces)) in
  Ok (b, set_self (BlockMeshDict.set_boundaries
                     (odict.set (BlockMeshDict.boundaries (self w)) name b)
                     (self w)) w).

Definition add_sphere (name : string) (center : Point.t) (radius : Q)
  : M Sphere.t := fun w =>
  let s := Sphere.mk name center radius in
  Ok (s, set_self (BlockMeshDict.set_geometries
                     (odict.set (BlockMeshDict.geometries (self w)) name s)
                     (self w)) w).

Definition add_proj_face (name : string) (face : Face.t)
    (proj_geometry_name : string) : M Face.t := fun w =>
  Ok (face,
      set_self (BlockMeshDict.set_proj_faces
                  (odict.set (BlockMeshDict.proj_faces (self w))
                     (Face.name face) (mkProjFace face proj_geometry_name))
                  (self w)) w).

(** *** [assign_vertexid] *)

(** the body of the inner loop: [st] is [(validvnames, valid_vertices)] *)
Definition gather_body (w : World) (st : gset string * list loc) (n : string)
  : result (gset string * list loc) :=
  v ← or_raise (KeyError n) (BlockMeshDict.vertices (self w) !! n);
  vobj ← or_raise Dangling (vertex_objs w !! v);
  if decide (Vertex.name vobj ∈ st.1) then Ok st
  else Ok ({[ Vertex.name vobj ]} ∪ st.1, st.2 ++ [v]).

(** the two nested loops over the blocks and their vertex names *)
Definition gather (w : World) : result (gset string * list loc) :=
  for_each (fun st b => for_each (gather_body w) st (HexBlock.vnames b))
    (∅, []) (odict.values (BlockMeshDict.blocks (self w))).

(** [a < b] for two references to [Vertex] instances *)
Definition Vertex_lt_at (objs : list Vertex.t) (a b : loc) : bool :=
  match objs !! a, objs !! b with
  | Some va, Some vb => Vertex.lt va vb
  | _, _ => false
  end.

(** [for i, v in enumerate(vs, i): v.index = i] *)
Fixpoint assign_indices (i : nat) (vs : list loc) (objs : list Vertex.t)
  : result (list Vertex.t) :=
  match vs with
  | [] => Ok objs
  | v :: vs' =>
      vobj ← or_raise Dangling (objs !! v);
      assign_indices (S i) vs' (<[v := Vertex.set_index (Some i) vobj]> objs)
  end.

(** [assign_vertexid], with the sorting routine as an argument *)
Definition assign_vertexid_with
    (sort : (loc → loc → bool) → list loc → list loc) : M unit := fun w =>
  st ← gather w;
  let valid_vertices := sort (Vertex_lt_at (vertex_objs w)) st.2 in
  objs ← assign_indices 0 valid_vertices (vertex_objs w);
  Ok (tt, set_self (BlockMeshDict.set_valid_vertices (Some valid_vertices)
                      (self w))
            (set_vertex_objs objs w)).

Definition assign_vertexid : M unit := assign_vertexid_with (@sorted loc).

Section Format.
Variable format_g : Q → result string.
Variable set_iter : gset string → list string.

(** the line written for one entry of [valid_vertices] *)
Definition vertices_section_line (w : World) (v : loc) : result string :=
  vobj ← or_raise Dangling (vertex_objs w !! v);
  s ← Vertex.format format_g set_iter vobj;
  Ok ("    " +:+ s +:+ nl).

Definition format_vertices_section : M string := fun w =>
  vs ← or_raise (AttributeError "valid_vertices")
       (BlockMeshDict.valid_vertices (self w));
  lines ← mapM (vertices_section_line w) vs;
  Ok ("vertices" +:+ nl +:+ "(" +:+ nl +:+ String.concat "" lines +:+ ");",
      w).
End Format.

(** * Notions used in the statements *)

(** the keywords that [kw_to_index] maps to the face number [i] *)
Definition spellings (i : Z) : list string :=
  (filter (λ kv, kv.2 = i) HexBlock.kw_to_index).*1.

(** two calls of [add_boundary] that pass only [type_] and [name] *)
Definition two_default_boundaries : M (Boundary.t * Boundary.t) :=
  do b1 <- add_boundary "wall" "walls" None;;
  do b2 <- add_boundary "patch" "inlet" None;;
  M_ret (b1, b2).

Abbreviation registry w := (BlockMeshDict.vertices (self w)).

(** Every reference the document holds points into the object store, the way
    every Python reference points to an object. *)
Definition store_ok (w : World) : Prop :=
  map_Forall (λ _ v, v < length (vertex_objs w)) (registry w) ∧
  Forall (λ v, v < length (vertex_objs w))
    (default [] (BlockMeshDict.valid_vertices (self w))) ∧
  Forall (λ b, Boundary.faces b < length (list_objs w))
    (odict.values (BlockMeshDict.boundaries (self w))) ∧
  Boundary_init_default_faces < length (list_objs w) ∧
  add_boundary_default_faces < length (list_objs w).

#[global] Instance store_ok_dec w : Decision (store_ok w).
Proof. unfold store_ok. apply _. Defined.

(** two instances at the same point, under the same name and number *)
Definition same_vertex (a b : Vertex.t) : Prop :=
  Vertex.x a = Vertex.x b ∧ Vertex.y a = Vertex.y b ∧
  Vertex.z a = Vertex.z b ∧ Vertex.name a = Vertex.name b ∧
  Vertex.index a = Vertex.index b.

(** the vertex names of all blocks, in the order the loops visit them *)
Definition all_vnames (w : World) : list string :=
  concat (HexBlock.vnames <$> odict.values (BlockMeshDict.blocks (self w))).

(** [v] is the instance that some vertex name of some block looks up to *)
Definition referenced (w : World) (v : loc) : Prop :=
  ∃ b n, b ∈ odict.values (BlockMeshDict.blocks (self w)) ∧
         n ∈ HexBlock.vnames b ∧ registry w !! n = Some v.

(** the [index] of the instance at [v] *)
Definition index_at (w : World) (v : loc) : option nat :=
  vobj ← vertex_objs w !! v; Vertex.index vobj.

(** What the two loops have built once the names [done] are visited. *)
Record gathered (w : World) (done : list string)
    (st : gset string * list loc) : Prop := {
  gathered_NoDup : NoDup st.2;
  gathered_valid : ∀ v, v ∈ st.2 →
    ∃ n vobj, n ∈ done ∧ registry w !! n = Some v ∧
              vertex_objs w !! v = Some vobj ∧ Vertex.name vobj ∈ st.1;
  gathered_done : ∀ n, n ∈ done →
    ∃ v vobj, registry w !! n = Some v ∧ vertex_objs w !! v = Some vobj ∧
              Vertex.name vobj ∈ st.1;
  gathered_names : ∀ nm, nm ∈ st.1 →
    ∃ v vobj, v ∈ st.2 ∧ vertex_objs w !! v = Some vobj ∧
              Vertex.name vobj = nm
}.

(** Distinct referenced instances carry distinct [name] attributes. *)
Definition distinct_names (w : World) : Prop :=
  ∀ v1 v2 o1 o2,
    referenced w v1 → referenced w v2 →
    vertex_objs w !! v1 = Some o1 → vertex_objs w !! v2 = Some o2 →
    Vertex.name o1 = Vertex.name o2 → v1 = v2.

(** The instances the blocks refer to are listed once each in
    [valid_vertices], and the one at position [k] has index [k]: with [N]
    the length of the list, the indices 0..N-1 and the referenced instances
    are in bijection. *)
Definition numbered_bijectively (w w' : World) : Prop :=
  ∃ vs,
    BlockMeshDict.valid_vertices (self w') = Some vs ∧
    NoDup vs ∧
    (∀ v, v ∈ vs ↔ referenced w v) ∧
    (∀ k v, vs !! k = Some v → index_at w' v = Some k).

(** The eight corners of the unit cube in the corner order of a block, one
    block on them, and a ninth vertex that no block uses. *)
Definition unit_cube : M unit :=
  do v0 <- new_Vertex 0 0 0 "v0";;
  do v1 <- new_Vertex 1 0 0 "v1";;
  do v2 <- new_Vertex 1 1 0 "v2";;
  do v3 <- new_Vertex 0 1 0 "v3";;
  do v4 <- new_Vertex 0 0 1 "v4";;
  do v5 <- new_Vertex 1 0 1 "v5";;
  do v6 <- new_Vertex 1 1 1 "v6";;
  do v7 <- new_Vertex 0 1 1 "v7";;
  do c <- new_Vertex 0.5 0.5 0.5 "c";;
  run add_vertex v0 "v0";;
  run add_vertex v1 "v1";;
  run add_vertex v2 "v2";;
  run add_vertex v3 "v3";;
  run add_vertex v4 "v4";;
  run add_vertex v5 "v5";;
  run add_vertex v6 "v6";;
  run add_vertex v7 "v7";;
  run add_vertex c "c";;
  run add_hexblock ["v0"; "v1"; "v2"; "v3"; "v4"; "v5"; "v6"; "v7"]
        [1; 1; 1]%Z "b0" None;;
  M_ret tt.


(** [a <= b] on 3-tuples of numbers *)
Definition tuple3_le (a b : Q * Q * Q) : bool :=
  let '(a0, a1, a2) := a in
  let '(b0, b1, b2) := b in
  if negb (num_eq a0 b0) then num_lt a0 b0
  else if negb (num_eq a1 b1) then num_lt a1 b1
  else if negb (num_eq a2 b2) then num_lt a2 b2
  else true.

(** Of two listed instances, the one with the smaller index has the smaller
    or equal [(z, y, x)]. *)
Definition sorted_by_zyx (w : World) : Prop :=
  ∀ vs a b A B i j,
    BlockMeshDict.valid_vertices (self w) = Some vs →
    a ∈ vs → b ∈ vs →
    vertex_objs w !! a = Some A → vertex_objs w !! b = Some B →
    Vertex.index A = Some i → Vertex.index B = Some j → i < j →
    tuple3_le (Vertex.z A, Vertex.y A, Vertex.x A)
              (Vertex.z B, Vertex.y B, Vertex.x B) = true.

(** two states differ at most in [convert_to_meters] *)
Definition same_but_convert_to_meters (w w' : World) : Prop :=
  vertex_objs w' = vertex_objs w ∧ list_objs w' = list_objs w
  ∧ stdout w' = stdout w
  ∧ BlockMeshDict.vertices (self w') = BlockMeshDict.vertices (self w)
  ∧ BlockMeshDict.blocks (self w') = BlockMeshDict.blocks (self w)
  ∧ BlockMeshDict.edges (self w') = BlockMeshDict.edges (self w)
  ∧ BlockMeshDict.boundaries (self w') = BlockMeshDict.boundaries (self w)
  ∧ BlockMeshDict.geometries (self w') = BlockMeshDict.geometries (self w)
  ∧ BlockMeshDict.proj_faces (self w') = BlockMeshDict.proj_faces (self w)
  ∧ BlockMeshDict.valid_vertices (self w')
    = BlockMeshDict.valid_vertices (self w).

(** the three coordinates of an instance can be rendered *)
Definition Vertex_renders (format_g : Q → result string) (vobj : Vertex.t)
  : Prop :=
  is_Ok (format_g (Vertex.x vobj)) ∧ is_Ok (format_g (Vertex.y vobj))
    ∧ is_Ok (format_g (Vertex.z vobj)).

(** * The formatters *)

(** whether the character [c] occurs in [s] *)
Fixpoint str_has_char (c : ascii) (s : string) : bool :=
  match s with
  | EmptyString => false
  | String c' rest => bool_decide (c' = c) || str_has_char c rest
  end.

(** [s.replace(old, new)] for a one-character [old] *)
Fixpoint str_replace_char (old : ascii) (new : string) (s : string) : string :=
  match s with
  | EmptyString => EmptyString
  | String c rest =>
      if decide (c = old) then new +:+ str_replace_char old new rest
      else String c (str_replace_char old new rest)
  end.

Definition nl_char : ascii := ascii_of_nat 10.

(** the text made of the given lines, each ended by a newline *)
Definition unlines (lines : list string) : string :=
  String.concat "" ((λ l, l +:+ nl) <$> lines).

(** [' '.join(str(vertices[vn].index) for vn in vnames)], the first
    expression of every [format] that takes [vertices] *)
Definition format_index (objs : list Vertex.t) (vertices : gmap string loc)
    (vnames : list string) : result string :=
  index ← mapM (λ vn,
             v ← or_raise (KeyError vn) (vertices !! vn);
             vobj ← or_raise Dangling (objs !! v);
             Ok (Vertex.str_index (Vertex.index vobj))) vnames;
  Ok (str_join " " index).

(** [Face.format(vertices, prj_geom='')] *)
Definition Face_format (objs : list Vertex.t) (vertices : gmap string loc)
    (self : Face.t) (prj_geom : string) : result string :=
  index ← format_index objs vertices (Face.vnames self);
  let com := str_join " " (Face.vnames self) in
  Ok ("(" +:+ index +:+ ") " +:+ prj_geom +:+ " // " +:+ Face.name self
        +:+ " (" +:+ com +:+ ")").

Section Formatters.
(** The renderings of a number are left open: ['{:18.15g}'], ['{:f}'],
    ['{:g}'], [str] and, for a number of cells, ['{:d}'], each of which may
    raise; so is the iteration order of a [set]. *)
Variable format_g : Q → result string.
Variable set_iter : gset string → list string.
Variable format_f : Q → result string.
Variable format_gs : Q → result string.
Variable str_num : Q → result string.
Variable format_d : Z → result string.

(** [Point.format] *)
Definition Point_format (self : Point.t) : result string :=
  sx ← format_g (Point.x self);
  sy ← format_g (Point.y self);
  sz ← format_g (Point.z self);
  Ok ("( " +:+ sx +:+ " " +:+ sy +:+ " " +:+ sz +:+ " )").

(** [Sphere.format] *)
Definition Sphere_format (self : Sphere.t) : result string :=
  centre ← Point_format (Sphere.center self);
  radius ← format_g (Sphere.radius self);
  Ok (Sphere.name self +:+ nl
        +:+ "    {" +:+ nl
        +:+ "        type searchableSphere;" +:+ nl
        +:+ "        centre " +:+ centre +:+ ";" +:+ nl
        +:+ "        radius " +:+ radius +:+ ";" +:+ nl
        +:+ "    }" +:+ nl).

(** [SimpleGradingElement.format] *)
Definition SimpleGradingElement_format (self : SimpleGradingElement.t)
  : result string :=
  match self with
  | SimpleGradingElement.Multi d =>
      segments ← mapM (λ e : Q * Q * Q,
                    s0 ← format_gs e.1.1;
                    s1 ← format_gs e.1.2;
                    s2 ← format_gs e.2;
                    Ok ("( " +:+ s0 +:+ " " +:+ s1 +:+ " " +:+ s2 +:+ " ) "))
                  d;
      Ok ("( " +:+ String.concat "" segments +:+ ")")
  | SimpleGradingElement.Ratio d => str_num d
  end.

(** [SimpleGrading.format] *)
Definition SimpleGrading_format (self : SimpleGrading.t) : result string :=
  sx ← SimpleGradingElement_format (SimpleGrading.x self);
  sy ← SimpleGradingElement_format (SimpleGrading.y self);
  sz ← SimpleGradingElement_format (SimpleGrading.z self);
  Ok ("simpleGrading (" +:+ sx +:+ " " +:+ sy +:+ " " +:+ sz +:+ ")").

(** [HexBlock.format(vertices)]: [self.grading.format()] is an argument of
    [str.format], evaluated before the fields [{1[0]:d}], [{1[1]:d}] and
    [{1[2]:d}] are looked up and rendered, one after the other. *)
Definition HexBlock_format (objs : list Vertex.t)
    (vertices : gmap string loc) (self : HexBlock.t) : result string :=
  index ← format_index objs vertices (HexBlock.vnames self);
  let vcom := str_join " " (HexBlock.vnames self) in
  grading ← SimpleGrading_format (HexBlock.grading self);
  c0 ← py_getitem (HexBlock.cells self) 0;
  s0 ← format_d c0;
  c1 ← py_getitem (HexBlock.cells self) 1;
  s1 ← format_d c1;
  c2 ← py_getitem (HexBlock.cells self) 2;
  s2 ← format_d c2;
  Ok ("hex (" +:+ index +:+ ") " +:+ HexBlock.name self
        +:+ " (" +:+ s0 +:+ " " +:+ s1 +:+ " " +:+ s2
        +:+ ") " +:+ grading +:+ "  // " +:+ HexBlock.name self
        +:+ " (" +:+ vcom +:+ ")").

(** [ArcEdge.format(vertices)] and [SplineEdge.format(vertices)] *)
Definition Edge_format (objs : list Vertex.t) (vertices : gmap string loc)
    (self : Edge) : result string :=
  match self with
  | ArcEdge vnames name interVertex =>
      index ← format_index objs vertices vnames;
      let vcom := str_join " " vnames in
      sx ← format_f (Point.x interVertex);
      sy ← format_f (Point.y interVertex);
      sz ← format_f (Point.z interVertex);
      Ok ("arc " +:+ index +:+ " (" +:+ sx +:+ " " +:+ sy +:+ " " +:+ sz
            +:+ ") // " +:+ name +:+ " (" +:+ vcom +:+ ")")
  | SplineEdge vnames name points =>
      index ← format_index objs vertices vnames;
      let vcom := str_join " " vnames in
      lines ← mapM (λ p,
                 s ← Point_format p;
                 Ok ("         " +:+ s +:+ nl)) points;
      Ok ("spline " +:+ index +:+ "                      // "
            +:+ name +:+ " (" +:+ vcom +:+ ")"
            +:+ nl +:+ "     (" +:+ nl
            +:+ String.concat "" lines
            +:+ nl +:+ "     )" +:+ nl)
  end.

(** [Boundary.format(vertices)] *)
Definition Boundary_format (objs : list Vertex.t)
    (lists : list (list Face.t)) (vertices : gmap string loc)
    (self : Boundary.t) : result string :=
  faces ← or_raise Dangling (lists !! Boundary.faces self);
  lines ← mapM (λ f,
             s ← Face_format objs vertices f "";
             Ok ("        " +:+ s +:+ nl)) faces;
  Ok (Boundary.name self +:+ nl
        +:+ "{" +:+ nl
        +:+ "    type " +:+ Boundary.type_ self +:+ ";" +:+ nl
        +:+ "    faces" +:+ nl
        +:+ "    (" +:+ nl
        +:+ String.concat "" lines
        +:+ "    );" +:+ nl
        +:+ "}").

Definition format_geometry_section : M string := fun w =>
  lines ← mapM (λ g,
             s ← Sphere_format g;
             Ok ("    " +:+ s +:+ nl))
           (odict.values (BlockMeshDict.geometries (self w)));
  Ok ("geometry" +:+ nl +:+ "{" +:+ nl +:+ String.concat "" lines +:+ "};",
      w).

Definition format_blocks_section : M string := fun w =>
  lines ← mapM (λ b,
             s ← HexBlock_format (vertex_objs w)
                   (BlockMeshDict.vertices (self w)) b;
             Ok ("    " +:+ s +:+ nl))
           (odict.values (BlockMeshDict.blocks (self w)));
  Ok ("blocks" +:+ nl +:+ "(" +:+ nl +:+ String.concat "" lines +:+ ");", w).

Definition format_edges_section : M string := fun w =>
  lines ← mapM (λ e,
             s ← Edge_format (vertex_objs w)
                   (BlockMeshDict.vertices (self w)) e;
             Ok ("  " +:+ s +:+ nl))
           (odict.values (BlockMeshDict.edges (self w)));
  Ok ("edges" +:+ nl +:+ "(" +:+ nl +:+ String.concat "" lines +:+ ");", w).

Definition format_faces_section : M string := fun w =>
  lines ← mapM (λ pFace,
             s ← Face_format (vertex_objs w)
                   (BlockMeshDict.vertices (self w))
                   (pf_face pFace) (pf_proj_geom pFace);
             Ok (" project " +:+ s +:+ " " +:+ nl))
           (odict.values (BlockMeshDict.proj_faces (self w)));
  Ok ("faces" +:+ nl +:+ "(" +:+ nl +:+ String.concat "" lines +:+ ");", w).

(** what the loop of [format_boundary_section] writes for one boundary *)
Definition boundary_section_entry (w : World) (b : Boundary.t)
  : result string :=
  let indent := "    " in
  s ← Boundary_format (vertex_objs w) (list_objs w)
        (BlockMeshDict.vertices (self w)) b;
  let s := str_replace_char nl_char (nl +:+ indent) s in
  Ok (indent +:+ s +:+ nl).

Definition format_boundary_section : M string := fun w =>
  lines ← mapM (boundary_section_entry w)
           (odict.values (BlockMeshDict.boundaries (self w)));
  Ok ("boundary" +:+ nl +:+ "(" +:+ nl +:+ String.concat "" lines +:+ ");",
      w).

Definition format_mergepatchpairs_section : string :=
  "mergePatchPairs" +:+ nl +:+ "(" +:+ nl +:+ ");".
End Formatters.

(** ** [string.Template] *)

Definition is_ident_start (c : ascii) : bool :=
  let n := nat_of_ascii c in
  bool_decide (n = 95) || bool_decide (65 ≤ n ≤ 90)%nat
    || bool_decide (97 ≤ n ≤ 122)%nat.

Definition is_ident_char (c : ascii) : bool :=
  is_ident_start c || bool_decide (48 ≤ nat_of_ascii c ≤ 57)%nat.

(** where the scan of a template stands: in plain text, just after a [$],
    inside the identifier of [$identifier] or of [${identifier}] *)
Inductive template_state :=
| in_text
| after_dollar
| in_named (id : string)
| in_braced (id : string).

Definition sum_bind {E A B} (x : E + A) (f : A → E + B) : E + B :=
  match x with
  | inl e => inl e
  | inr a => f a
  end.

Definition template_lookup (mapping : odict.t string) (id : string)
  : exn + string :=
  match odict.get mapping id with
  | Some v => inr v
  | None => inl (KeyError id)
  end.

Definition invalid_placeholder : exn :=
  ValueError "Invalid placeholder in string".

(** [Template(tmpl).substitute] with keyword arguments: [$$] is a dollar sign,
    [$identifier] and [${identifier}] are replaced by the value of the
    identifier, any other [$] is an error. *)
Fixpoint Template_substitute_from (mapping : odict.t string)
    (st : template_state) (tmpl : string) : exn + string :=
  match tmpl with
  | EmptyString =>
      match st with
      | in_text => inr EmptyString
      | in_named id => template_lookup mapping id
      | after_dollar | in_braced _ => inl invalid_placeholder
      end
  | String c rest =>
      match st with
      | in_text =>
          if decide (c = "$"%char)
          then Template_substitute_from mapping after_dollar rest
          else sum_bind (Template_substitute_from mapping in_text rest)
                 (λ out, inr (String c out))
      | after_dollar =>
          if decide (c = "$"%char)
          then sum_bind (Template_substitute_from mapping in_text rest)
                 (λ out, inr (String c out))
          else if decide (c = "{"%char)
          then Template_substitute_from mapping (in_braced "") rest
          else if is_ident_start c
          then Template_substitute_from mapping (in_named (String c "")) rest
          else inl invalid_placeholder
      | in_named id =>
          if is_ident_char c
          then Template_substitute_from mapping
                 (in_named (id +:+ String c "")) rest
          else
            sum_bind (template_lookup mapping id) (λ v,
              sum_bind
                (if decide (c = "$"%char)
                 then Template_substitute_from mapping after_dollar rest
                 else sum_bind (Template_substitute_from mapping in_text rest)
                        (λ out, inr (String c out)))
                (λ out, inr (v +:+ out)))
      | in_braced id =>
          if decide (c = "}"%char)
          then
            if decide (id = "") then inl invalid_placeholder
            else
              sum_bind (template_lookup mapping id) (λ v,
                sum_bind (Template_substitute_from mapping in_text rest)
                  (λ out, inr (v +:+ out)))
          else if (if decide (id = "") then is_ident_start c
                   else is_ident_char c)
          then Template_substitute_from mapping
                 (in_braced (id +:+ String c "")) rest
          else inl invalid_placeholder
      end
  end.

Definition Template_substitute (tmpl : string) (mapping : odict.t string)
  : exn + string :=
  Template_substitute_from mapping in_text tmpl.

(** the template of [BlockMeshDict.format] *)
Definition template : string := unlines [
    "/*--------------------------------*- C++ -*----------------------------------*\";
    "| =========                 |                                                 |";
    "| \\      /  F ield         | OpenFOAM: The Open Source CFD Toolbox           |";
    "|  \\    /   O peration     | Version:  5.0.0                                 |";
    "|   \\  /    A nd           | Web:      www.OpenFOAM.org                      |";
    "|    \\/     M anipulation  |                                                 |";
    "\*---------------------------------------------------------------------------*/";
    "FoamFile";
    "{";
    "    version     2.0;";
    "    format      ascii;";
    "    class       dictionary;";
    "    object      blockMeshDict;";
    "}";
    "// * * * * * * * * * * * * * * * * * * * * * * * * * * * * * * * * * * * * * //";
    "";
    "convertToMeters $metricconvert;";
    "";
    "$geometry";
    "";
    "$vertices";
    "";
    "$edges";
    "";
    "$blocks";
    "";
    "$faces";
    "";
    "$boundary";
    "";
    "$mergepatchpairs";
    "";
    "// ************************************************************************* //"
  ].

Section FormatDocument.
Variable format_g : Q → result string.
Variable set_iter : gset string → list string.
Variable format_f : Q → result string.
Variable format_gs : Q → result string.
Variable str_num : Q → result string.
Variable format_d : Z → result string.

(** [str(self.convert_to_meters)] *)
Definition format_metricconvert : M string := fun w =>
  s ← str_num (BlockMeshDict.convert_to_meters (self w));
  Ok (s, w).

(** the keyword arguments of [template.substitute], evaluated in the order
    they are written *)
Definition format_sections : M (odict.t string) :=
  do metricconvert <- format_metricconvert;;
  do geometry <- format_geometry_section format_g;;
  do vertices <- format_vertices_section format_g set_iter;;
  do edges <- format_edges_section format_g format_f;;
  do blocks <- format_blocks_section format_gs str_num format_d;;
  do faces <- format_faces_section;;
  do boundary <- format_boundary_section;;
  fun w =>
    Ok ([ ("metricconvert", metricconvert);
          ("geometry", geometry);
          ("vertices", vertices);
          ("edges", edges);
          ("blocks", blocks);
          ("faces", faces);
          ("boundary", boundary);
          ("mergepatchpairs", format_mergepatchpairs_section) ], w).

(** [BlockMeshDict.format] *)
Definition format (w : World) : exn + string :=
  match format_sections w with
  | Raise e => inl e
  | Ok (mapping, _) => Template_substitute template mapping
  end.
End FormatDocument.

(** the text of [template] before [convertToMeters] and its last line *)
Definition template_head : string := unlines [
    "/*--------------------------------*- C++ -*----------------------------------*\";
    "| =========                 |                                                 |";
    "| \\      /  F ield         | OpenFOAM: The Open Source CFD Toolbox           |";
    "|  \\    /   O peration     | Version:  5.0.0                                 |";
    "|   \\  /    A nd           | Web:      www.OpenFOAM.org                      |";
    "|    \\/     M anipulation  |                                                 |";
    "\*---------------------------------------------------------------------------*/";
    "FoamFile";
    "{";
    "    version     2.0;";
    "    format      ascii;";
    "    class       dictionary;";
    "    object      blockMeshDict;";
    "}";
    "// * * * * * * * * * * * * * * * * * * * * * * * * * * * * * * * * * * * * * //";
    ""
  ].

Definition template_foot : string :=
  "// ************************************************************************* //" +:+ nl.

(** two instances that differ at most in their [index] *)
Definition same_but_index (a b : Vertex.t) : Prop :=
  Vertex.x a = Vertex.x b ∧ Vertex.y a = Vertex.y b ∧
  Vertex.z a = Vertex.z b ∧ Vertex.name a = Vertex.name b ∧
  Vertex.alias a = Vertex.alias b.

(** * Properties *)

(** ** Properties of the containers *)

Lemma odict_get_set_eq {V} (d : odict.t V) k v :
  odict.get (odict.set d k v) k = Some v.
Proof.
  induction d as [|[k' v'] d IH]; simpl.
  - by rewrite decide_True.
  - destruct (decide (k' = k)) as [->|Hne]; simpl.
    + by rewrite decide_True.
    + by rewrite decide_False.
Qed.

Lemma odict_get_set_ne {V} (d : odict.t V) k k' v :
  k ≠ k' → odict.get (odict.set d k v) k' = odict.get d k'.
Proof.
  intros Hne. induction d as [|[k0 v0] d IH]; simpl.
  - by rewrite decide_False.
  - destruct (decide (k0 = k)) as [->|Hne0]; simpl.
    + by rewrite !decide_False.
    + destruct (decide (k0 = k')); [done | apply IH].
Qed.

(** Assigning twice to one key is assigning the second value. *)
Lemma odict_set_set {V} (d : odict.t V) k v1 v2 :
  odict.set (odict.set d k v1) k v2 = odict.set d k v2.
Proof.
  induction d as [|[k' v'] d IH]; simpl.
  - by rewrite decide_True.
  - destruct (decide (k' = k)) as [->|Hne]; simpl.
    + by rewrite decide_True.
    + rewrite decide_False by done. by rewrite IH.
Qed.

(** Assigning to a key that is present keeps the keys and their order. *)
Lemma odict_keys_set_present {V} (d : odict.t V) k v :
  is_Some (odict.get d k) → odict.keys (odict.set d k v) = odict.keys d.
Proof.
  unfold odict.keys. induction d as [|[k' v'] d IH]; simpl.
  - by intros [? ?].
  - destruct (decide (k' = k)) as [->|Hne]; simpl; [done|].
    intros H. f_equal. by apply IH.
Qed.

Lemma for_each_app {S A} (body : S → A → result S) s l1 l2 :
  for_each body s (l1 ++ l2) = (s' ← for_each body s l1; for_each body s' l2).
Proof.
  revert s. induction l1 as [|a l1 IH]; intros s; simpl; [done|].
  destruct (body s a); simpl; [apply IH | done].
Qed.

Lemma elem_of_concat {A} (x : A) (ls : list (list A)) :
  x ∈ concat ls ↔ ∃ l, x ∈ l ∧ l ∈ ls.
Proof.
  induction ls as [|l0 ls IH]; simpl.
  - split; [by intros ?%elem_of_nil | by intros (? & _ & ?%elem_of_nil)].
  - rewrite elem_of_app, IH. split.
    + intros [H|(l & ? & ?)].
      * exists l0. split; [done | apply list_elem_of_here].
      * exists l. split; [done | by apply list_elem_of_further].
    + intros (l & Hx & [->|Hl]%elem_of_cons); [by left | right; by exists l].
Qed.

(** Nested loops run over the concatenation. *)
Lemma for_each_nested {S A B} (body : S → A → result S) (f : B → list A) s l :
  for_each (fun s b => for_each body s (f b)) s l
  = for_each body s (concat (f <$> l)).
Proof.
  revert s. induction l as [|b l IH]; intros s; simpl; [done|].
  rewrite for_each_app. destruct (for_each body s (f b)); simpl; [apply IH | done].
Qed.

(** ** [HexBlock.face] *)

Lemma spellings_kw_to_index kw i :
  kw ∈ spellings i → odict.get HexBlock.kw_to_index kw = Some i.
Proof.
  unfold spellings. intros H.
  apply list_elem_of_fmap in H as [[kw' i'] [-> H]].
  apply list_elem_of_filter in H as [Hi H]. simpl in Hi. subst i'. simpl.
  unfold HexBlock.kw_to_index in H.
  repeat (apply elem_of_cons in H as [H|H]; [by inversion H|]).
  by apply elem_of_nil in H.
Qed.

Lemma face_index_cases (i : Z) :
  (0 ≤ i < 6)%Z → i = 0%Z ∨ i = 1%Z ∨ i = 2%Z ∨ i = 3%Z ∨ i = 4%Z ∨ i = 5%Z.
Proof. lia. Qed.

Lemma length_8_inv {A} (l : list A) :
  length l = 8 → ∃ a0 a1 a2 a3 a4 a5 a6 a7, l = [a0; a1; a2; a3; a4; a5; a6; a7].
Proof.
  intros H. do 8 (destruct l as [|? l]; [discriminate H|]).
  destruct l; [|discriminate H]. by do 8 eexists.
Qed.

(** C5: every keyword spelling of a face number gives the same [Face] as the
    number itself, for any block and any [name] argument; each face number in
    0..5 has exactly three spellings (letter, axis and sign, signed-axis
    code); and on a block of 8 vertex names, face [i] is made of the 4 names
    at the corner positions the table [index_to_vertex] lists for [i]. *)
Theorem face_keyword_same_as_index :
  (spellings 0 = ["w"; "xm"; "-100"] ∧ spellings 1 = ["e"; "xp"; "100"] ∧
   spellings 2 = ["s"; "ym"; "0-10"] ∧ spellings 3 = ["n"; "yp"; "010"] ∧
   spellings 4 = ["b"; "zm"; "00-1"] ∧ spellings 5 = ["t"; "zp"; "001"]) ∧
  (∀ (b : HexBlock.t) (i : Z) (kw : string) (name : option string),
     kw ∈ spellings i →
     HexBlock.face b (Kw kw) name = HexBlock.face b (Ix i) name) ∧
  (∀ (b : HexBlock.t) (i : Z) (name : option string),
     length (HexBlock.vnames b) = 8 → (0 ≤ i < 6)%Z →
     ∃ corners f,
       HexBlock.index_to_vertex !! Z.to_nat i = Some corners ∧
       HexBlock.face b (Ix i) name = Ok f ∧
       length (Face.vnames f) = 4 ∧
       Forall2 (λ c n, HexBlock.vnames b !! Z.to_nat c = Some n)
         corners (Face.vnames f)).
Proof.
  split; [by repeat split|]. split.
  - intros b i kw name H. apply spellings_kw_to_index in H.
    unfold HexBlock.face, odict.getitem. by rewrite H.
  - intros [vn cells bname gr] i name Hlen Hi. simpl in Hlen.
    apply length_8_inv in Hlen as (a0&a1&a2&a3&a4&a5&a6&a7&->).
    destruct (face_index_cases i Hi) as [-> | [-> | [-> | [-> | [-> | ->]]]]];
      destruct name; (do 2 eexists; split; [reflexivity|];
        split; [reflexivity|]; split; [reflexivity|];
        repeat constructor).
Qed.

Lemma face_keyword_same_as_index_witness :
  let b := HexBlock.mk ["v0"; "v1"; "v2"; "v3"; "v4"; "v5"; "v6"; "v7"]
             [1; 1; 1]%Z "b0" SimpleGrading.default in
  HexBlock.face b (Kw "xp") None = HexBlock.face b (Ix 1) None ∧
  ∃ corners f,
    HexBlock.index_to_vertex !! Z.to_nat 1 = Some corners ∧
    HexBlock.face b (Ix 1) None = Ok f ∧
    length (Face.vnames f) = 4 ∧
    Forall2 (λ c n, HexBlock.vnames b !! Z.to_nat c = Some n)
      corners (Face.vnames f).
Proof.
  intros b. split.
  - apply (proj1 (proj2 face_keyword_same_as_index) b 1%Z "xp" None).
    unfold spellings. simpl. set_solver.
  - apply (proj2 (proj2 face_keyword_same_as_index) b 1%Z None).
    + reflexivity.
    + lia.
Defined.

(** C6: the faces 1 and 3 of any block of 8 vertex names get the same
    default name: [index_to_defaultsuffix] has the entry [f-{}-n] twice. *)
Theorem face_default_name_duplicate :
  ∃ i j : Z,
    i ≠ j ∧ (0 ≤ i < 6)%Z ∧ (0 ≤ j < 6)%Z ∧
    ∀ b : HexBlock.t,
      length (HexBlock.vnames b) = 8 →
      ∃ fi fj,
        HexBlock.face b (Ix i) None = Ok fi ∧
        HexBlock.face b (Ix j) None = Ok fj ∧
        Face.name fi = Face.name fj ∧
        Face.name fi = "f-" +:+ HexBlock.name b +:+ "-n".
Proof.
  exists 1%Z, 3%Z. repeat split; try lia.
  intros [vn cells bname gr] Hlen. simpl in Hlen.
  apply length_8_inv in Hlen as (a0&a1&a2&a3&a4&a5&a6&a7&->).
  do 2 eexists. repeat split.
Qed.

Lemma face_default_name_duplicate_witness :
  let b := HexBlock.mk ["v0"; "v1"; "v2"; "v3"; "v4"; "v5"; "v6"; "v7"]
             [1; 1; 1]%Z "b0" SimpleGrading.default in
  ∃ i j : Z,
    i ≠ j ∧
    ∃ fi fj,
      HexBlock.face b (Ix i) None = Ok fi ∧
      HexBlock.face b (Ix j) None = Ok fj ∧
      Face.name fi = Face.name fj.
Proof.
  intros b.
  destruct face_default_name_duplicate as (i & j & Hne & _ & _ & H).
  destruct (H b eq_refl) as (fi & fj & Hi & Hj & Hn & _).
  exists i, j. split; [exact Hne|]. exists fi, fj. auto.
Defined.

(** ** [set_metric] *)

Lemma metricsym_unknown metric :
  metric ∉ ["km"; "m"; "cm"; "mm"; "um"; "nm"; "A"; "Angstrom"] →
  odict.get metricsym_to_conversion metric = None.
Proof.
  intros H. unfold metricsym_to_conversion. simpl.
  repeat (case_decide; [subst metric; exfalso; apply H; set_solver|]).
  done.
Qed.

(** C9: after [set_metric('mm')] the [convert_to_meters] of the document
    reads 0.001, that is 1/1000; a symbol outside km, m, cm, mm, um, nm, A,
    Angstrom raises [KeyError] with that symbol; each of these eight symbols
    is accepted, and [convert_to_meters] then reads its power of ten: 3, 0,
    -2, -3, -6, -9, -10, -10.  Nothing else of the state changes. *)
Theorem set_metric_table :
  (∀ w, ∃ w', set_metric "mm" w = Ok (tt, w') ∧
     BlockMeshDict.convert_to_meters (self w') = 0.001%Q ∧
     (BlockMeshDict.convert_to_meters (self w') == 1 # 1000)%Q ∧
     same_but_convert_to_meters w w') ∧
  (∀ metric w,
     metric ∉ ["km"; "m"; "cm"; "mm"; "um"; "nm"; "A"; "Angstrom"] →
     set_metric metric w = Raise (KeyError metric)) ∧
  (∀ metric (e : Z) w,
     (metric, e) ∈ [("km", 3); ("m", 0); ("cm", -2); ("mm", -3); ("um", -6);
                    ("nm", -9); ("A", -10); ("Angstrom", -10)]%Z →
     ∃ w', set_metric metric w = Ok (tt, w') ∧
       (BlockMeshDict.convert_to_meters (self w') == 10 ^ e)%Q ∧
       same_but_convert_to_meters w w').
Proof.
  split; [|split].
  - intros w. eexists. split; [reflexivity|].
    split; [reflexivity|]. split; [reflexivity|].
    unfold same_but_convert_to_meters. by repeat split.
  - intros metric w H. unfold set_metric, odict.getitem.
    by rewrite (metricsym_unknown _ H).
  - intros metric e w H.
    repeat (apply elem_of_cons in H as [H|H];
            [inversion H; subst; eexists; split; [reflexivity|];
             split; [reflexivity|];
             unfold same_but_convert_to_meters; by repeat split|]).
    by apply elem_of_nil in H.
Qed.

Lemma set_metric_table_witness :
  set_metric "ly" fresh_world = Raise (KeyError "ly") ∧
  ∃ w', set_metric "um" fresh_world = Ok (tt, w') ∧
    (BlockMeshDict.convert_to_meters (self w') == 10 ^ (-6))%Q ∧
    same_but_convert_to_meters fresh_world w'.
Proof.
  split.
  - apply (proj1 (proj2 set_metric_table) "ly" fresh_world).
    intros H.
    repeat (apply elem_of_cons in H as [H|H]; [discriminate H|]).
    by apply elem_of_nil in H.
  - apply (proj2 (proj2 set_metric_table) "um" (-6)%Z fresh_world).
    set_solver.
Defined.

(** ** [add_proj_face] *)

(** C10: [add_proj_face] files the entry under [face.name] and never reads
    its [name] argument; other keys keep their entries; when the key is
    already present the keys of [proj_faces] stay as they are; and two calls
    with faces of the same name leave the registry as the second call alone
    does, whatever [name] arguments were passed. *)
Theorem add_proj_face_keyed_by_face_name :
  (∀ name face g w,
     ∃ w', add_proj_face name face g w = Ok (face, w') ∧
       odict.get (BlockMeshDict.proj_faces (self w')) (Face.name face)
       = Some (mkProjFace face g) ∧
       (∀ k, k ≠ Face.name face →
             odict.get (BlockMeshDict.proj_faces (self w')) k
             = odict.get (BlockMeshDict.proj_faces (self w)) k) ∧
       (is_Some (odict.get (BlockMeshDict.proj_faces (self w))
                   (Face.name face)) →
        odict.keys (BlockMeshDict.proj_faces (self w'))
        = odict.keys (BlockMeshDict.proj_faces (self w)))) ∧
  (∀ name name' face g w,
     add_proj_face name face g w = add_proj_face name' face g w) ∧
  (∀ name1 name2 face1 face2 g1 g2 w,
     Face.name face1 = Face.name face2 →
     (run add_proj_face name1 face1 g1;; add_proj_face name2 face2 g2) w
     = add_proj_face name2 face2 g2 w).
Proof.
  split; [|split].
  - intros name face g w. eexists. split; [reflexivity|]. simpl.
    split; [apply odict_get_set_eq|]. split.
    + intros k Hk. by apply odict_get_set_ne.
    + apply odict_keys_set_present.
  - done.
  - intros name1 name2 face1 face2 g1 g2 w Hname.
    unfold M_bind, add_proj_face. simpl. rewrite Hname.
    by rewrite odict_set_set.
Qed.

Lemma add_proj_face_keyed_by_face_name_witness :
  let f1 := Face.mk ["v0"; "v4"; "v7"; "v3"] "inlet" in
  let f2 := Face.mk ["v1"; "v2"; "v6"; "v5"] "inlet" in
  Face.name f1 = Face.name f2 ∧
  (run add_proj_face "a" f1 "sphere1";; add_proj_face "b" f2 "sphere2")
    fresh_world
  = add_proj_face "b" f2 "sphere2" fresh_world.
Proof.
  intros f1 f2. split; [reflexivity|].
  apply (proj2 (proj2 add_proj_face_keyed_by_face_name)
           "a" "b" f1 f2 "sphere1" "sphere2" fresh_world).
  reflexivity.
Defined.

(** ** [add_vertex] *)

(** C8: [add_vertex] with a name the registry already has returns the
    instance registered before, leaves the document and the object store as
    they were (the instance passed in is not registered), and prints one
    line. *)
Theorem add_vertex_existing_kept :
  ∀ (vertex : loc) (name : string) (r : loc) (w : World),
    BlockMeshDict.vertices (self w) !! name = Some r →
    ∃ w', add_vertex vertex name w = Ok (r, w') ∧
      self w' = self w ∧
      vertex_objs w' = vertex_objs w ∧
      list_objs w' = list_objs w ∧
      stdout w'
      = stdout w ++ ["Vertex " +:+ name +:+ " has already been assigned"].
Proof.
  intros vertex name r w H. unfold add_vertex.
  rewrite decide_True by (by rewrite H). simpl. rewrite H. simpl.
  by eexists.
Qed.

Lemma add_vertex_existing_kept_witness :
  let w :=
    mkWorld [Vertex.init 0 0 0 "v0"; Vertex.init 1 1 1 "v0"] [ []; [] ] []
      (BlockMeshDict.set_vertices {[ "v0" := 0 ]} BlockMeshDict.init) in
  ∃ w', add_vertex 1 "v0" w = Ok (0, w') ∧
    self w' = self w ∧
    vertex_objs w' = vertex_objs w ∧
    list_objs w' = list_objs w ∧
    stdout w' = stdout w ++ ["Vertex v0 has already been assigned"].
Proof.
  intros w. apply (add_vertex_existing_kept 1 "v0" 0 w). reflexivity.
Defined.

(** ** [Boundary] and [add_boundary] *)

(** C7 fails on the code: the two boundaries made by [add_boundary] without a
    face list refer to one and the same list, the default value of the
    [faces] parameter, so [add_face] on the first shows in the second; the
    same holds for two [Boundary] objects built without a face list. *)
Theorem default_faces_shared :
  (∃ b1 b2 w,
     two_default_boundaries fresh_world = Ok ((b1, b2), w) ∧
     Boundary.faces b1 = Boundary.faces b2 ∧
     Boundary_faces b2 w = Some [] ∧
     ∀ f, ∃ w', Boundary_add_face b1 f w = Ok (tt, w') ∧
                Boundary_faces b2 w' = Some [f]) ∧
  (∀ t1 n1 t2 n2,
     Boundary.faces (new_Boundary t1 n1 None)
     = Boundary.faces (new_Boundary t2 n2 None)).
Proof.
  split; [|done].
  do 3 eexists. split; [reflexivity|]. split; [reflexivity|].
  split; [reflexivity|]. intros f. eexists. split; reflexivity.
Qed.

Lemma store_ok_registry w n v :
  store_ok w → registry w !! n = Some v → is_Some (vertex_objs w !! v).
Proof.
  intros [H _] Hn. apply lookup_lt_is_Some. by apply (H n v).
Qed.

Lemma same_vertex_refl a : same_vertex a a.
Proof. by repeat split. Qed.

Lemma same_vertex_trans a b c :
  same_vertex a b → same_vertex b c → same_vertex a c.
Proof.
  intros (?&?&?&?&?) (?&?&?&?&?). repeat split; congruence.
Qed.

(** ** [reduce_vertex] *)

Lemma reduce_vertex_body_Ok v w n w1 :
  reduce_vertex_body v w n = Ok w1 →
  ∃ r robj vobj,
    registry w !! n = Some r ∧
    vertex_objs w !! r = Some robj ∧
    vertex_objs w !! v = Some vobj ∧
    registry w1 = <[n := v]> (registry w) ∧
    vertex_objs w1
    = <[v := Vertex.set_alias (Vertex.alias vobj ∪ Vertex.alias robj) vobj]>
        (vertex_objs w).
Proof.
  unfold reduce_vertex_body.
  destruct (registry w !! n) as [r|] eqn:Hn; simpl; [|done].
  destruct (vertex_objs w !! r) as [robj|] eqn:Hr; simpl; [|done].
  destruct (vertex_objs w !! v) as [vobj|] eqn:Hv; simpl; [|done].
  intros [= <-]. by exists r, robj, vobj.
Qed.

(** Once [n] refers to the instance [v], the loop body changes nothing. *)
Lemma reduce_vertex_body_noop v w n vobj :
  registry w !! n = Some v →
  vertex_objs w !! v = Some vobj →
  reduce_vertex_body v w n = Ok w.
Proof.
  intros Hn Hv. unfold reduce_vertex_body. rewrite Hn. simpl.
  rewrite Hv. simpl. f_equal.
  rewrite insert_id by done.
  replace (Vertex.set_alias (Vertex.alias vobj ∪ Vertex.alias vobj) vobj)
    with vobj.
  2:{ destruct vobj. unfold Vertex.set_alias. simpl. f_equal.
      by rewrite union_idemp_L. }
  rewrite list_insert_id by done.
  by destruct w as [? ? ? []].
Qed.

(** The loop of [reduce_vertex], started where [v] holds [vobj]. *)
Lemma reduce_vertex_loop v names : ∀ w w' vobj,
  for_each (reduce_vertex_body v) w names = Ok w' →
  vertex_objs w !! v = Some vobj →
  ∃ vobj',
    vertex_objs w' !! v = Some vobj' ∧
    same_vertex vobj vobj' ∧
    Vertex.alias vobj ⊆ Vertex.alias vobj' ∧
    (∀ n, n ∈ names → registry w' !! n = Some v) ∧
    (∀ n, n ∉ names → registry w' !! n = registry w !! n) ∧
    (∀ n r robj, n ∈ names → registry w !! n = Some r →
                 vertex_objs w !! r = Some robj →
                 Vertex.alias robj ⊆ Vertex.alias vobj').
Proof.
  induction names as [|m names IH]; intros w w' vobj Hloop Hv; simpl in Hloop.
  - injection Hloop as <-. exists vobj.
    split; [done|]. split; [apply same_vertex_refl|]. split; [done|].
    split; [by intros n Hn%elem_of_nil|]. split; [done|].
    by intros n r robj Hn%elem_of_nil.
  - destruct (reduce_vertex_body v w m) as [w1|] eqn:Hbody;
      simpl in Hloop; [|done].
    apply reduce_vertex_body_Ok in Hbody
      as (r & robj & vobj0 & Hm & Hr & Hv0 & Hreg & Hobjs).
    rewrite Hv in Hv0. injection Hv0 as <-.
    set (vobj1 := Vertex.set_alias (Vertex.alias vobj ∪ Vertex.alias robj) vobj)
      in *.
    assert (Hsub1 : Vertex.alias vobj ⊆ Vertex.alias vobj1)
      by apply union_subseteq_l.
    assert (Hsub2 : Vertex.alias robj ⊆ Vertex.alias vobj1)
      by apply union_subseteq_r.
    assert (Hv1 : vertex_objs w1 !! v = Some vobj1).
    { rewrite Hobjs. apply list_lookup_insert_eq.
      by apply lookup_lt_Some in Hv. }
    destruct (IH w1 w' vobj1 Hloop Hv1)
      as (vobj' & Hv' & Hsame & Hsub & Hin & Hout & Hal).
    exists vobj'. split; [done|].
    split; [eapply same_vertex_trans; [|exact Hsame]; by destruct vobj|].
    split; [by etrans|].
    split; [|split].
    + intros n [->|Hn]%elem_of_cons; [|by apply Hin].
      destruct (decide (m ∈ names)) as [Hmn|Hmn]; [by apply Hin|].
      rewrite (Hout _ Hmn), Hreg. apply lookup_insert_eq.
    + intros n [Hnm Hn]%not_elem_of_cons.
      rewrite (Hout _ Hn), Hreg. by apply lookup_insert_ne.
    + intros n r0 robj0 Hn Hn0 Hr0.
      assert (Hsub0 : Vertex.alias robj0 ⊆ Vertex.alias vobj1 ∨
                      (n ∈ names ∧ registry w1 !! n = Some r0 ∧
                       vertex_objs w1 !! r0 = Some robj0)).
      { destruct (decide (n = m)) as [->|Hnm].
        - left. rewrite Hm in Hn0. injection Hn0 as <-.
          rewrite Hr in Hr0. by injection Hr0 as <-.
        - destruct (decide (r0 = v)) as [->|Hr0v].
          + left. rewrite Hv in Hr0. by injection Hr0 as <-.
          + right. apply elem_of_cons in Hn as [?|Hn]; [done|].
            split; [done|]. split.
            * rewrite Hreg. by rewrite lookup_insert_ne.
            * rewrite Hobjs. by rewrite list_lookup_insert_ne. }
      destruct Hsub0 as [Hsub0|(Hn1 & Hreg1 & Hobj1)]; [by etrans|].
      by eapply Hal.
Qed.

(** C3: after a successful [reduce_vertex(name1, *names)], [name1] and every
    one of [names] look up to the instance [v] that [name1] referred to
    before; that instance is at the same coordinates as before; and its alias
    set includes the alias set that the instance of each of these names had
    before the call. *)
Theorem reduce_vertex_merges :
  ∀ (name1 : string) (names : list string) (w w' : World),
    store_ok w →
    reduce_vertex name1 names w = Ok (tt, w') →
    ∃ v vobj vobj',
      registry w !! name1 = Some v ∧
      vertex_objs w !! v = Some vobj ∧
      vertex_objs w' !! v = Some vobj' ∧
      (∀ n, n ∈ name1 :: names → registry w' !! n = Some v) ∧
      (Vertex.x vobj' = Vertex.x vobj ∧ Vertex.y vobj' = Vertex.y vobj ∧
       Vertex.z vobj' = Vertex.z vobj) ∧
      (∀ n r robj, n ∈ name1 :: names → registry w !! n = Some r →
                   vertex_objs w !! r = Some robj →
                   Vertex.alias robj ⊆ Vertex.alias vobj').
Proof.
  intros name1 names w w' Hok H. unfold reduce_vertex in H.
  destruct (registry w !! name1) as [v|] eqn:Hname1; simpl in H; [|done].
  destruct (for_each (reduce_vertex_body v) w names) as [w1|] eqn:Hloop;
    simpl in H; [|done].
  injection H as <-.
  destruct (store_ok_registry _ _ _ Hok Hname1) as [vobj Hv].
  destruct (reduce_vertex_loop v names w w1 vobj Hloop Hv)
    as (vobj' & Hv' & Hsame & Hsub & Hin & Hout & Hal).
  exists v, vobj, vobj'. repeat split; try done.
  - intros n [->|Hn]%elem_of_cons; [|by apply Hin].
    destruct (decide (name1 ∈ names)) as [H1|H1]; [by apply Hin|].
    by rewrite (Hout _ H1).
  - symmetry. apply Hsame.
  - symmetry. apply Hsame.
  - symmetry. apply Hsame.
  - intros n r robj [->|Hn]%elem_of_cons Hr Hrobj; [|by eapply Hal].
    rewrite Hname1 in Hr. injection Hr as <-.
    rewrite Hv in Hrobj. by injection Hrobj as <-.
Qed.

(** Where every name already refers to [v], the loop changes nothing. *)
Lemma reduce_vertex_loop_again v names : ∀ w vobj,
  (∀ n, n ∈ names → registry w !! n = Some v) →
  vertex_objs w !! v = Some vobj →
  for_each (reduce_vertex_body v) w names = Ok w.
Proof.
  induction names as [|m names IH]; intros w vobj Hreg Hv; simpl; [done|].
  rewrite (reduce_vertex_body_noop v w m vobj); [|apply Hreg; set_solver|done].
  simpl. eapply IH; [|done]. intros n Hn. apply Hreg. set_solver.
Qed.

(** C4: when [reduce_vertex(name1, *names)] has succeeded, the same call on
    the resulting state succeeds and returns that state unchanged: registry,
    instances and their alias sets. *)
Theorem reduce_vertex_idempotent :
  ∀ (name1 : string) (names : list string) (w w' : World),
    reduce_vertex name1 names w = Ok (tt, w') →
    reduce_vertex name1 names w' = Ok (tt, w').
Proof.
  intros name1 names w w' H. unfold reduce_vertex in H.
  destruct (registry w !! name1) as [v|] eqn:Hname1; simpl in H; [|done].
  destruct (for_each (reduce_vertex_body v) w names) as [w1|] eqn:Hloop;
    simpl in H; [|done].
  injection H as <-.
  destruct names as [|m names].
  { simpl in Hloop. injection Hloop as <-.
    unfold reduce_vertex. by rewrite Hname1. }
  assert (∃ vobj, vertex_objs w !! v = Some vobj) as [vobj Hv].
  { simpl in Hloop.
    destruct (reduce_vertex_body v w m) as [w2|] eqn:Hbody;
      simpl in Hloop; [|done].
    apply reduce_vertex_body_Ok in Hbody as (?&?&vobj&?&?&?&?). by exists vobj. }
  destruct (reduce_vertex_loop v (m :: names) w w1 vobj Hloop Hv)
    as (vobj' & Hv' & Hsame & Hsub & Hin & Hout & Hal).
  assert (Hname1' : registry w1 !! name1 = Some v).
  { destruct (decide (name1 ∈ m :: names)) as [H1|H1]; [by apply Hin|].
    by rewrite (Hout _ H1). }
  unfold reduce_vertex. rewrite Hname1'. cbn -[for_each].
  by rewrite (reduce_vertex_loop_again v _ w1 vobj' Hin Hv').
Qed.

Lemma reduce_vertex_merges_witness :
  let w :=
    mkWorld [Vertex.init 0 0 0 "v0"; Vertex.init 0 0 0 "v0b"] [ []; [] ] []
      (BlockMeshDict.set_vertices {[ "v0" := 0; "v0b" := 1 ]}
         BlockMeshDict.init) in
  ∃ w' v vobj vobj',
    reduce_vertex "v0" ["v0b"] w = Ok (tt, w') ∧
    registry w !! "v0" = Some v ∧
    vertex_objs w !! v = Some vobj ∧
    vertex_objs w' !! v = Some vobj' ∧
    (∀ n, n ∈ ["v0"; "v0b"] → registry w' !! n = Some v) ∧
    (Vertex.x vobj' = Vertex.x vobj ∧ Vertex.y vobj' = Vertex.y vobj ∧
     Vertex.z vobj' = Vertex.z vobj) ∧
    (∀ n r robj, n ∈ ["v0"; "v0b"] → registry w !! n = Some r →
                 vertex_objs w !! r = Some robj →
                 Vertex.alias robj ⊆ Vertex.alias vobj').
Proof.
  intros w.
  destruct (reduce_vertex "v0" ["v0b"] w) as [[[] w']|] eqn:Hcall;
    [|by vm_compute in Hcall].
  assert (Hok : store_ok w) by (apply (bool_decide_unpack _); by vm_compute).
  destruct (reduce_vertex_merges "v0" ["v0b"] w w' Hok Hcall)
    as (v & vobj & vobj' & H).
  by exists w', v, vobj, vobj'.
Defined.

Lemma reduce_vertex_idempotent_witness :
  let w :=
    mkWorld [Vertex.init 0 0 0 "v0"; Vertex.init 0 0 0 "v0b"] [ []; [] ] []
      (BlockMeshDict.set_vertices {[ "v0" := 0; "v0b" := 1 ]}
         BlockMeshDict.init) in
  ∃ w', reduce_vertex "v0" ["v0b"] w = Ok (tt, w') ∧
        reduce_vertex "v0" ["v0b"] w' = Ok (tt, w').
Proof.
  intros w.
  destruct (reduce_vertex "v0" ["v0b"] w) as [[[] w']|] eqn:Hcall;
    [|by vm_compute in Hcall].
  exists w'. split; [reflexivity|].
  exact (reduce_vertex_idempotent "v0" ["v0b"] w w' Hcall).
Defined.

(** ** [sorted] permutes its argument, whatever [lt] is *)

Section SortedPermutation.
Context {A : Type} (lt : A → A → bool).

(** The binary search stops because its interval is empty, not because the
    fuel is spent: any fuel from [r - l] on gives the same position. *)
Lemma bisect_fuel pivot pre : ∀ fuel fuel' l r : nat,
  (r - l ≤ fuel)%nat → (r - l ≤ fuel')%nat →
  bisect lt fuel pivot pre l r = bisect lt fuel' pivot pre l r.
Proof.
  induction fuel as [|fuel IH]; intros [|fuel'] l r H H';
    cbn -[Nat.div]; try done.
  - case_decide; [lia | done].
  - case_decide; [lia | done].
  - case_decide as Hlr; [|done].
    pose proof (Nat.Div0.mul_div_le (r - l) 2) as Hd.
    destruct (pre !! (l + (r - l) / 2)) as [x|]; [|done].
    destruct (lt pivot x); apply IH; lia.
Qed.

Lemma insert_at_Permutation i (x : A) l : insert_at i x l ≡ₚ x :: l.
Proof.
  unfold insert_at. rewrite <- Permutation_middle.
  by rewrite take_drop.
Qed.

Lemma binarysort_Permutation rest : ∀ pre : list A,
  binarysort lt pre rest ≡ₚ pre ++ rest.
Proof.
  induction rest as [|pivot rest IH]; intros pre; simpl.
  - by rewrite app_nil_r.
  - rewrite IH, insert_at_Permutation.
    by rewrite <- Permutation_middle.
Qed.

Lemma sorted_Permutation (l : list A) : sorted lt l ≡ₚ l.
Proof.
  unfold sorted. case_decide; [done|].
  destruct (count_run lt l) as [n descending].
  rewrite binarysort_Permutation.
  transitivity (take n l ++ drop n l); [|by rewrite take_drop].
  apply Permutation_app_tail.
  destruct descending; [apply reverse_Permutation | done].
Qed.
End SortedPermutation.

(** ** [assign_vertexid] *)

Lemma referenced_all_vnames w v :
  referenced w v ↔ ∃ n, n ∈ all_vnames w ∧ registry w !! n = Some v.
Proof.
  unfold referenced, all_vnames. split.
  - intros (b & n & Hb & Hn & Hv). exists n. split; [|done].
    apply elem_of_concat. exists (HexBlock.vnames b). split; [done|].
    apply list_elem_of_fmap. by exists b.
  - intros (n & Hn & Hv).
    apply elem_of_concat in Hn as (ns & Hn & Hns).
    apply list_elem_of_fmap in Hns as (b & -> & Hb). by exists b, n.
Qed.

Lemma gather_flat w :
  gather w = for_each (gather_body w) (∅, []) (all_vnames w).
Proof. unfold gather, all_vnames. apply for_each_nested. Qed.

Lemma gathered_init w : gathered w [] (∅, []).
Proof.
  split; simpl.
  - constructor.
  - by intros v Hv%elem_of_nil.
  - by intros n Hn%elem_of_nil.
  - by intros nm Hnm%elem_of_empty.
Qed.

Lemma gather_body_gathered w done st n st' :
  gathered w done st →
  gather_body w st n = Ok st' →
  gathered w (done ++ [n]) st'.
Proof.
  intros [Hnd Hvalid Hdone Hnames]. unfold gather_body.
  destruct (registry w !! n) as [v|] eqn:Hn; simpl; [|done].
  destruct (vertex_objs w !! v) as [vobj|] eqn:Hv; simpl; [|done].
  case_decide as Hseen; intros [= <-].
  - split; [done|..|done].
    + intros v0 (n0 & vobj0 & ? & ? & ? & ?)%Hvalid.
      exists n0, vobj0. set_solver.
    + intros n0 [Hn0| ->%list_elem_of_singleton]%elem_of_app.
      * by apply Hdone.
      * by exists v, vobj.
  - assert (v ∉ st.2) as Hfresh.
    { intros (n0 & vobj0 & _ & _ & Hv0 & Hseen0)%Hvalid.
      rewrite Hv in Hv0. by injection Hv0 as <-. }
    split; simpl.
    + apply NoDup_app. split; [done|]. split; [|apply NoDup_singleton].
      intros v0 Hv0 ->%list_elem_of_singleton. done.
    + intros v0 [Hv0| ->%list_elem_of_singleton]%elem_of_app.
      * destruct (Hvalid _ Hv0) as (n0 & vobj0 & ? & ? & ? & ?).
        exists n0, vobj0. set_solver.
      * exists n, vobj. set_solver.
    + intros n0 [Hn0| ->%list_elem_of_singleton]%elem_of_app.
      * destruct (Hdone _ Hn0) as (v0 & vobj0 & ? & ? & ?).
        exists v0, vobj0. set_solver.
      * exists v, vobj. set_solver.
    + intros nm [->%elem_of_singleton|Hnm]%elem_of_union.
      * exists v, vobj. set_solver.
      * destruct (Hnames _ Hnm) as (v0 & vobj0 & ? & ? & ?).
        exists v0, vobj0. set_solver.
Qed.

Lemma for_each_gathered w names : ∀ done st st',
  gathered w done st →
  for_each (gather_body w) st names = Ok st' →
  gathered w (done ++ names) st'.
Proof.
  induction names as [|n names IH]; intros done st st' Hg Hloop;
    simpl in Hloop.
  - injection Hloop as <-. by rewrite app_nil_r.
  - destruct (gather_body w st n) as [st1|] eqn:Hbody; simpl in Hloop; [|done].
    rewrite (assoc_L (++) done [n] names : done ++ n :: names = _).
    eapply IH; [|done]. by eapply gather_body_gathered.
Qed.

Lemma gather_gathered w st :
  gather w = Ok st → gathered w (all_vnames w) st.
Proof.
  rewrite gather_flat. intros H.
  by apply (for_each_gathered w (all_vnames w) [] (∅, []) st (gathered_init w)).
Qed.

(** [assign_indices] numbers the instances of a duplicate-free list by
    position and touches no other instance. *)
Lemma assign_indices_spec vs : ∀ i objs objs',
  NoDup vs →
  assign_indices i vs objs = Ok objs' →
  length objs' = length objs ∧
  (∀ k v, vs !! k = Some v →
     ∃ vobj, objs !! v = Some vobj ∧
             objs' !! v = Some (Vertex.set_index (Some (i + k)) vobj)) ∧
  (∀ v, v ∉ vs → objs' !! v = objs !! v).
Proof.
  induction vs as [|v0 vs IH]; intros i objs objs' Hnd H; simpl in H.
  - injection H as <-. split; [done|]. split; [|done].
    intros k v Hk. by rewrite lookup_nil in Hk.
  - destruct (objs !! v0) as [vobj0|] eqn:Hv0; simpl in H; [|done].
    apply NoDup_cons in Hnd as [Hv0vs Hnd].
    destruct (IH _ _ _ Hnd H) as (Hlen & Hin & Hout).
    rewrite length_insert in Hlen. split; [done|]. split.
    + intros [|k] v Hk; simpl in Hk.
      * injection Hk as <-. exists vobj0. split; [done|].
        rewrite (Hout _ Hv0vs), Nat.add_0_r.
        apply list_lookup_insert_eq. by apply lookup_lt_Some in Hv0.
      * assert (v ≠ v0) as Hne.
        { intros ->. apply Hv0vs. by eapply list_elem_of_lookup_2. }
        destruct (Hin _ _ Hk) as (vobj & Hv & Hv').
        rewrite list_lookup_insert_ne in Hv by done.
        exists vobj. split; [done|].
        by replace (i + S k) with (S i + k) by lia.
    + intros v [Hne Hv]%not_elem_of_cons.
      rewrite (Hout _ Hv). by apply list_lookup_insert_ne.
Qed.


Lemma mapM_result_is_Ok {A B} (f : A → result B) (l : list A) :
  (∀ x, x ∈ l → is_Ok (f x)) → is_Ok (mapM f l).
Proof.
  induction l as [|a l IH]; intros H; simpl; [by eexists|].
  destruct (H a) as [b ->]; [set_solver|]. simpl.
  destruct IH as [k ->]; [|by eexists].
  intros x Hx. apply H. set_solver.
Qed.

Section AssignVertexid.
(** Any routine that permutes its argument will do for [sorted]. *)
Variable sort : (loc → loc → bool) → list loc → list loc.
Hypothesis sort_Permutation : ∀ lt l, sort lt l ≡ₚ l.

Lemma assign_vertexid_with_Ok w w' :
  assign_vertexid_with sort w = Ok (tt, w') →
  ∃ st vs,
    gather w = Ok st ∧ vs ≡ₚ st.2 ∧
    BlockMeshDict.valid_vertices (self w') = Some vs ∧
    (∀ k v, vs !! k = Some v →
       ∃ vobj, vertex_objs w !! v = Some vobj ∧
               vertex_objs w' !! v
               = Some (Vertex.set_index (Some k) vobj)) ∧
    (∀ v, v ∉ vs → vertex_objs w' !! v = vertex_objs w !! v).
Proof.
  unfold assign_vertexid_with. intros H.
  destruct (gather w) as [st|] eqn:Hg; simpl in H; [|done].
  set (vs := sort (Vertex_lt_at (vertex_objs w)) st.2) in *.
  destruct (assign_indices 0 vs (vertex_objs w)) as [objs|] eqn:Ha;
    simpl in H; [|done].
  injection H as <-.
  assert (Hperm : vs ≡ₚ st.2) by apply sort_Permutation.
  assert (Hnd : NoDup vs).
  { rewrite Hperm. by apply (gathered_NoDup _ _ _ (gather_gathered _ _ Hg)). }
  destruct (assign_indices_spec vs 0 _ _ Hnd Ha) as (_ & Hin & Hout).
  exists st, vs. by repeat split.
Qed.

Lemma assign_vertexid_with_bijection w w' :
  distinct_names w →
  assign_vertexid_with sort w = Ok (tt, w') →
  numbered_bijectively w w'.
Proof.
  intros Hdist H.
  destruct (assign_vertexid_with_Ok w w' H)
    as (st & vs & Hg & Hperm & Hvalid & Hin & Hout).
  apply gather_gathered in Hg as [Hnd Hgv Hgd Hgn].
  assert (Href : ∀ v, v ∈ st.2 → referenced w v).
  { intros v (n & vobj & Hn & Hv & _)%Hgv.
    apply referenced_all_vnames. by exists n. }
  exists vs. split; [done|]. split; [by rewrite Hperm|]. split.
  - intros v. rewrite Hperm. split; [apply Href|].
    intros Hv. pose proof Hv as (n & Hn & Hnv)%referenced_all_vnames.
    destruct (Hgd _ Hn) as (v' & vobj & Hnv' & Hvobj & Hseen).
    rewrite Hnv in Hnv'. injection Hnv' as <-.
    destruct (Hgn _ Hseen) as (v0 & vobj0 & Hv0 & Hvobj0 & Hname).
    by rewrite <- (Hdist v0 v vobj0 vobj (Href _ Hv0) Hv Hvobj0 Hvobj Hname).
  - intros k v Hk. destruct (Hin _ _ Hk) as (vobj & _ & Hv').
    unfold index_at. by rewrite Hv'.
Qed.

(** An instance no block refers to is left as it was and is not listed. *)
Lemma assign_vertexid_with_unreferenced w w' v :
  assign_vertexid_with sort w = Ok (tt, w') →
  ¬ referenced w v →
  vertex_objs w' !! v = vertex_objs w !! v ∧
  ∀ vs, BlockMeshDict.valid_vertices (self w') = Some vs → v ∉ vs.
Proof.
  intros H Hv.
  destruct (assign_vertexid_with_Ok w w' H)
    as (st & vs & Hg & Hperm & Hvalid & Hin & Hout).
  apply gather_gathered in Hg as [Hnd Hgv Hgd Hgn].
  assert (v ∉ vs) as Hvs.
  { rewrite Hperm. intros (n & vobj & Hn & Hnv & _)%Hgv.
    apply Hv, referenced_all_vnames. by exists n. }
  split; [by apply Hout|].
  intros vs' Hvs'. rewrite Hvalid in Hvs'. by injection Hvs' as <-.
Qed.

End AssignVertexid.

Lemma mapM_result_is_Ok_inv {A B} (f : A → result B) (l : list A) :
  is_Ok (mapM f l) → ∀ x, x ∈ l → is_Ok (f x).
Proof.
  induction l as [|a l IH]; intros [k Hk] x Hx.
  { by apply elem_of_nil in Hx. }
  simpl in Hk. destruct (f a) as [b|e] eqn:Hfa; [|discriminate Hk].
  simpl in Hk. destruct (mapM f l) as [k'|e] eqn:Hl; [|discriminate Hk].
  apply elem_of_cons in Hx as [-> | Hx]; [by eexists|].
  apply IH; [by eexists|done].
Qed.

Section FormatVerticesSection.
Variable format_g : Q → result string.
Variable set_iter : gset string → list string.

Lemma Vertex_format_is_Ok vobj :
  is_Ok (Vertex.format format_g set_iter vobj) ↔ Vertex_renders format_g vobj.
Proof.
  unfold Vertex.format, Vertex_renders. split.
  - intros [s Hs].
    destruct (format_g (Vertex.x vobj)); [|discriminate Hs].
    destruct (format_g (Vertex.y vobj)); [|discriminate Hs].
    destruct (format_g (Vertex.z vobj)); [|discriminate Hs].
    repeat split; by eexists.
  - intros ([sx ->] & [sy ->] & [sz ->]). by eexists.
Qed.


(** With every listed instance in the store, [format_vertices_section]
    returns exactly when the coordinates of each of them can be rendered. *)
Lemma format_vertices_section_is_Ok w vs :
  BlockMeshDict.valid_vertices (self w) = Some vs →
  (∀ v, v ∈ vs → is_Some (vertex_objs w !! v)) →
  is_Ok (format_vertices_section format_g set_iter w) ↔
  (∀ v vobj, v ∈ vs → vertex_objs w !! v = Some vobj →
     Vertex_renders format_g vobj).
Proof.
  intros Hvs Hall. unfold format_vertices_section. rewrite Hvs. simpl. split.
  - intros Hok v vobj Hv Hvobj.
    assert (Hlines : is_Ok (mapM (vertices_section_line format_g set_iter w)
                              vs)).
    { destruct Hok as [r Hr].
      destruct (mapM (vertices_section_line format_g set_iter w) vs);
        [by eexists|discriminate Hr]. }
    pose proof (mapM_result_is_Ok_inv _ _ Hlines v Hv) as [line Hline].
    unfold vertices_section_line in Hline. rewrite Hvobj in Hline.
    simpl in Hline. apply Vertex_format_is_Ok.
    destruct (Vertex.format format_g set_iter vobj);
      [by eexists|discriminate Hline].
  - intros Hren.
    destruct (mapM_result_is_Ok (vertices_section_line format_g set_iter w)
                vs) as [lines ->]; [|by eexists].
    intros v Hv. destruct (Hall v Hv) as [vobj Hvobj].
    unfold vertices_section_line. rewrite Hvobj. simpl.
    destruct (proj2 (Vertex_format_is_Ok vobj) (Hren v vobj Hv Hvobj))
      as [s ->].
    by eexists.
Qed.
End FormatVerticesSection.

Lemma store_names_distinct w :
  NoDup (Vertex.name <$> vertex_objs w) → distinct_names w.
Proof.
  intros Hnd v1 v2 o1 o2 _ _ H1 H2 Hname.
  eapply NoDup_lookup; [exact Hnd| |].
  - by rewrite list_lookup_fmap, H1.
  - rewrite list_lookup_fmap, H2. simpl. by rewrite Hname.
Qed.

(** [__lt__] never reads [rhs.x]. *)
Lemma Vertex_lt_ignores_rhs_x (a b b' : Vertex.t) :
  Vertex.y b = Vertex.y b' → Vertex.z b = Vertex.z b' →
  Vertex.lt a b = Vertex.lt a b'.
Proof. unfold Vertex.lt. by intros -> ->. Qed.

(** C1 fails on the code: on the unit cube [assign_vertexid] gives the corner
    (1, 1, 0) the index 2 and the corner (0, 1, 0) the index 3.  [__lt__]
    compares [self.x] with [rhs.z], so two vertices with equal [z] and [y]
    are never ordered by [x]. *)
Theorem unit_cube_not_sorted :
  ∃ w w',
    unit_cube fresh_world = Ok (tt, w) ∧
    assign_vertexid w = Ok (tt, w') ∧
    BlockMeshDict.valid_vertices (self w') = Some [0; 1; 2; 3; 4; 5; 7; 6] ∧
    ¬ sorted_by_zyx w'.
Proof.
  eexists _, _. split; [vm_compute; reflexivity|].
  split; [vm_compute; reflexivity|]. split; [reflexivity|].
  intros H.
  unshelve epose proof
    (H [0; 1; 2; 3; 4; 5; 7; 6] 2 3 _ _ 2 3 eq_refl _ _
       eq_refl eq_refl eq_refl eq_refl _) as Hle;
    [set_solver | set_solver | lia |].
  by vm_compute in Hle.
Qed.




(** ** The object store stays well formed, and [Dangling] is never raised *)

Lemma store_ok_fresh_world : store_ok fresh_world.
Proof. apply (bool_decide_unpack _). by vm_compute. Qed.

Lemma odict_values_set_Forall {V} (P : V → Prop) (d : odict.t V) k v :
  Forall P (odict.values d) → P v → Forall P (odict.values (odict.set d k v)).
Proof.
  unfold odict.values. intros Hd Hv.
  induction d as [|[k' v'] d IH]; simpl.
  - by repeat constructor.
  - apply Forall_cons in Hd as [Hv' Hd].
    destruct (decide (k' = k)); simpl; constructor; auto.
Qed.

Lemma new_Vertex_store_ok x y z name w v w' :
  store_ok w → new_Vertex x y z name w = Ok (v, w') →
  store_ok w' ∧ v < length (vertex_objs w') ∧
  vertex_objs w' !! v = Some (Vertex.init x y z name).
Proof.
  intros (H1 & H2 & H3 & H4 & H5). unfold new_Vertex. intros [= <- <-]. simpl.
  rewrite length_app. simpl. split; [|split; [lia|]].
  - split_and!; try done.
    + eapply map_Forall_impl; [exact H1|]. simpl. intros _ v Hv.
      rewrite ?length_app. simpl. lia.
    + eapply Forall_impl; [exact H2|]. simpl. intros v Hv.
      rewrite ?length_app. simpl. lia.
  - rewrite lookup_app_r by done. by rewrite Nat.sub_diag.
Qed.

Lemma new_list_store_ok faces w l w' :
  store_ok w → new_list faces w = Ok (l, w') →
  store_ok w' ∧ l < length (list_objs w').
Proof.
  intros (H1 & H2 & H3 & H4 & H5). unfold new_list. intros [= <- <-].
  unfold Boundary_init_default_faces, add_boundary_default_faces in *.
  split.
  - split_and!; simpl; rewrite ?length_app; simpl; try done.
    + eapply Forall_impl; [exact H3|]. simpl. lia.
    + unfold Boundary_init_default_faces. lia.
    + unfold add_boundary_default_faces. lia.
  - simpl. rewrite length_app. simpl. lia.
Qed.

Lemma add_vertex_store_ok vertex name w r w' :
  store_ok w → vertex < length (vertex_objs w) →
  add_vertex vertex name w = Ok (r, w') → store_ok w'.
Proof.
  intros (H1 & H2 & H3 & H4 & H5) Hv. unfold add_vertex.
  case_decide as Hin; simpl.
  - destruct (registry w !! name); simpl; [|done]. by intros [= <- <-].
  - rewrite lookup_insert_eq. simpl. intros [= <- <-].
    split_and!; simpl; try done. by apply map_Forall_insert_2.
Qed.

Lemma del_vertex_store_ok name w w' :
  store_ok w → del_vertex name w = Ok (tt, w') → store_ok w'.
Proof.
  intros (H1 & H2 & H3 & H4 & H5). unfold del_vertex.
  destruct (registry w !! name); simpl; [|done]. intros [= <-].
  split_and!; simpl; try done. by apply map_Forall_delete.
Qed.

Lemma reduce_vertex_body_store_ok v w n :
  store_ok w → v < length (vertex_objs w) →
  (∃ w', reduce_vertex_body v w n = Ok w' ∧ store_ok w' ∧
         length (vertex_objs w') = length (vertex_objs w)) ∨
  reduce_vertex_body v w n = Raise (KeyError n).
Proof.
  intros (H1 & H2 & H3 & H4 & H5) Hv. unfold reduce_vertex_body.
  destruct (registry w !! n) as [r|] eqn:Hn; simpl; [|by right].
  destruct (lookup_lt_is_Some_2 (vertex_objs w) r) as [robj ->];
    [by apply (H1 n r)|].
  destruct (lookup_lt_is_Some_2 (vertex_objs w) v) as [vobj ->]; [done|].
  simpl. left. eexists. split; [done|].
  split; [|simpl; by rewrite length_insert].
  split_and!; simpl; rewrite ?length_insert; try done.
  by apply map_Forall_insert_2.
Qed.

Lemma reduce_vertex_loop_store_ok v names : ∀ w,
  store_ok w → v < length (vertex_objs w) →
  (∃ w', for_each (reduce_vertex_body v) w names = Ok w' ∧ store_ok w') ∨
  (∃ n, n ∈ names ∧
        for_each (reduce_vertex_body v) w names = Raise (KeyError n)).
Proof.
  induction names as [|n names IH]; intros w Hok Hv; simpl.
  - left. by exists w.
  - destruct (reduce_vertex_body_store_ok v w n Hok Hv)
      as [(w1 & -> & Hok1 & Hlen)| ->]; simpl.
    + destruct (IH w1 Hok1) as [?|(m & Hm & ->)]; [lia|by left|].
      right. exists m. set_solver.
    + right. exists n. set_solver.
Qed.

(** On a well-formed state [reduce_vertex] returns a well-formed state, or
    raises [KeyError] for one of the names it was given. *)
Lemma reduce_vertex_store_ok name1 names w :
  store_ok w →
  (∃ w', reduce_vertex name1 names w = Ok (tt, w') ∧ store_ok w') ∨
  (∃ n, n ∈ name1 :: names ∧
        reduce_vertex name1 names w = Raise (KeyError n)).
Proof.
  intros Hok. unfold reduce_vertex.
  destruct (registry w !! name1) as [v|] eqn:Hname1; simpl.
  - destruct (reduce_vertex_loop_store_ok v names w Hok)
      as [(w' & -> & Hok')|(n & Hn & ->)].
    + by apply (proj1 Hok name1 v).
    + left. by exists w'.
    + right. exists n. set_solver.
  - right. exists name1. set_solver.
Qed.

Lemma add_boundary_store_ok type_ name faces w b w' :
  store_ok w →
  (∀ l, faces = Some l → l < length (list_objs w)) →
  add_boundary type_ name faces w = Ok (b, w') →
  store_ok w' ∧ Boundary.faces b < length (list_objs w').
Proof.
  intros (H1 & H2 & H3 & H4 & H5) Hf. unfold add_boundary.
  intros [= <- <-]. simpl.
  assert (default add_boundary_default_faces faces < length (list_objs w)).
  { destruct faces; simpl; [by apply Hf | done]. }
  split; [|done]. split_and!; simpl; try done.
  by apply odict_values_set_Forall.
Qed.

Lemma Boundary_add_face_store_ok b face w :
  store_ok w → Boundary.faces b < length (list_objs w) →
  ∃ w', Boundary_add_face b face w = Ok (tt, w') ∧ store_ok w'.
Proof.
  intros (H1 & H2 & H3 & H4 & H5) Hb. unfold Boundary_add_face.
  destruct (lookup_lt_is_Some_2 (list_objs w) (Boundary.faces b))
    as [l ->]; [done|].
  simpl. eexists. split; [done|].
  split_and!; simpl; rewrite ?length_insert; done.
Qed.

Lemma gather_body_store_ok w st n :
  store_ok w →
  (∃ st', gather_body w st n = Ok st') ∨
  gather_body w st n = Raise (KeyError n).
Proof.
  intros (H1 & _). unfold gather_body.
  destruct (registry w !! n) as [v|] eqn:Hn; simpl; [|by right].
  destruct (lookup_lt_is_Some_2 (vertex_objs w) v) as [vobj ->];
    [by apply (H1 n v)|].
  simpl. left. case_decide; by eexists.
Qed.

Lemma gather_store_ok w :
  store_ok w →
  (∃ st, gather w = Ok st) ∨
  (∃ n, n ∈ all_vnames w ∧ gather w = Raise (KeyError n)).
Proof.
  intros Hok. rewrite gather_flat.
  generalize (∅ : gset string, [] : list loc).
  induction (all_vnames w) as [|n names IH]; intros st; simpl.
  - left. by eexists.
  - destruct (gather_body_store_ok w st n Hok) as [(st' & ->)| ->]; simpl.
    + destruct (IH st') as [?|(m & Hm & ->)]; [by left|].
      right. exists m. set_solver.
    + right. exists n. set_solver.
Qed.

Lemma assign_indices_is_Ok vs : ∀ i objs,
  Forall (λ v, v < length objs) vs → is_Ok (assign_indices i vs objs).
Proof.
  induction vs as [|v vs IH]; intros i objs Hvs; simpl; [by eexists|].
  apply Forall_cons in Hvs as [Hv Hvs].
  destruct (lookup_lt_is_Some_2 objs v) as [vobj ->]; [done|]. simpl.
  apply IH. by rewrite length_insert.
Qed.

Section AssignVertexidStore.
Variable sort : (loc → loc → bool) → list loc → list loc.
Hypothesis sort_Permutation : ∀ lt l, sort lt l ≡ₚ l.

(** On a well-formed state [assign_vertexid] returns a well-formed state,
    or raises [KeyError] for a vertex name of a block. *)
Lemma assign_vertexid_with_store_ok w :
  store_ok w →
  (∃ w', assign_vertexid_with sort w = Ok (tt, w') ∧ store_ok w') ∨
  (∃ n, n ∈ all_vnames w ∧
        assign_vertexid_with sort w = Raise (KeyError n)).
Proof.
  intros Hok. unfold assign_vertexid_with.
  destruct (gather_store_ok w Hok) as [(st & Hg)|(n & Hn & ->)];
    [|right; by exists n].
  rewrite Hg. simpl. left.
  set (vs := sort (Vertex_lt_at (vertex_objs w)) st.2).
  assert (Hvs : Forall (λ v, v < length (vertex_objs w)) vs).
  { apply Forall_forall. intros v Hv. unfold vs in Hv.
    rewrite sort_Permutation in Hv.
    apply (gathered_valid _ _ _ (gather_gathered _ _ Hg)) in Hv
      as (_ & vobj & _ & _ & Hv & _).
    by apply lookup_lt_Some in Hv. }
  destruct (assign_indices_is_Ok vs 0 _ Hvs) as [objs Ha]. rewrite Ha. simpl.
  eexists. split; [done|].
  assert (Hnd : NoDup vs).
  { unfold vs. rewrite sort_Permutation.
    by apply (gathered_NoDup _ _ _ (gather_gathered _ _ Hg)). }
  destruct (assign_indices_spec vs 0 _ _ Hnd Ha) as (Hlen & _ & _).
  destruct Hok as (H1 & H2 & H3 & H4 & H5).
  split_and!; simpl; rewrite ?Hlen; done.
Qed.
End AssignVertexidStore.

Section FormatVerticesSectionStore.
Variable format_g : Q → result string.
Variable set_iter : gset string → list string.

(** On a well-formed state whose coordinates can all be rendered,
    [format_vertices_section] returns, unless [assign_vertexid] has not
    run. *)
Lemma format_vertices_section_store_ok w :
  store_ok w →
  (∀ vobj, vobj ∈ vertex_objs w → Vertex_renders format_g vobj) →
  is_Ok (format_vertices_section format_g set_iter w) ∨
  format_vertices_section format_g set_iter w
  = Raise (AttributeError "valid_vertices").
Proof.
  intros (_ & H2 & _) Hren.
  destruct (BlockMeshDict.valid_vertices (self w)) as [vs|] eqn:Hvs.
  - left. eapply format_vertices_section_is_Ok; [done| |].
    + intros v Hv. apply lookup_lt_is_Some.
      rewrite Forall_forall in H2. by apply H2.
    + intros v vobj _ Hvobj. apply Hren.
      by apply list_elem_of_lookup_2 in Hvobj.
  - right. unfold format_vertices_section. by rewrite Hvs.
Qed.
End FormatVerticesSectionStore.

(** * Further properties *)

(** ** [add_vertex] and [del_vertex] *)

(** X1: [add_vertex] with a name the registry does not have binds the name
    to the instance passed in and returns that instance; no other name is
    rebound, nothing is printed and the rest of the state is as before. *)
Theorem add_vertex_fresh :
  ∀ (vertex : loc) (name : string) (w : World),
    registry w !! name = None →
    ∃ w', add_vertex vertex name w = Ok (vertex, w') ∧
      registry w' !! name = Some vertex ∧
      (∀ n, n ≠ name → registry w' !! n = registry w !! n) ∧
      stdout w' = stdout w ∧
      vertex_objs w' = vertex_objs w ∧
      list_objs w' = list_objs w ∧
      BlockMeshDict.set_vertices (registry w) (self w') = self w.
Proof.
  intros vertex name w Hname. unfold add_vertex.
  rewrite decide_False by (rewrite Hname; by intros [? ?]).
  simpl. rewrite lookup_insert_eq. simpl. eexists. split; [done|]. simpl.
  split; [apply lookup_insert_eq|].
  split; [intros n Hn; by apply lookup_insert_ne|].
  by destruct w as [? ? ? []].
Qed.

Lemma add_vertex_fresh_witness :
  ∃ w', add_vertex 0 "v0" fresh_world = Ok (0, w') ∧
    registry w' !! "v0" = Some 0 ∧
    (∀ n, n ≠ "v0" → registry w' !! n = registry fresh_world !! n) ∧
    stdout w' = stdout fresh_world ∧
    vertex_objs w' = vertex_objs fresh_world ∧
    list_objs w' = list_objs fresh_world ∧
    BlockMeshDict.set_vertices (registry fresh_world) (self w')
    = self fresh_world.
Proof. apply (add_vertex_fresh 0 "v0" fresh_world). reflexivity. Defined.

(** X2: [del_vertex] raises [KeyError] for a name the registry does not
    have; otherwise it unbinds that name only: every other name keeps its
    instance and the instances themselves, alias sets included, are not
    touched.  Deleting a name just added under a fresh name gives the state
    back. *)
Theorem del_vertex_unbinds :
  (∀ name w, registry w !! name = None →
             del_vertex name w = Raise (KeyError name)) ∧
  (∀ name w, is_Some (registry w !! name) →
     ∃ w', del_vertex name w = Ok (tt, w') ∧
       registry w' !! name = None ∧
       (∀ n, n ≠ name → registry w' !! n = registry w !! n) ∧
       vertex_objs w' = vertex_objs w) ∧
  (∀ vertex name w, registry w !! name = None →
     (run add_vertex vertex name;; del_vertex name) w = Ok (tt, w)).
Proof.
  split; [|split].
  - intros name w H. unfold del_vertex. by rewrite H.
  - intros name w [v H]. unfold del_vertex. rewrite H. simpl.
    eexists. split; [done|]. simpl. split; [apply lookup_delete_eq|].
    split; [|done]. intros n Hn. by apply lookup_delete_ne.
  - intros vertex name w H. unfold M_bind, add_vertex.
    rewrite decide_False by (rewrite H; by intros [? ?]).
    simpl. rewrite lookup_insert_eq. simpl. unfold del_vertex. simpl.
    rewrite lookup_insert_eq. simpl. rewrite delete_insert_id by done.
    by destruct w as [? ? ? []].
Qed.

Lemma del_vertex_unbinds_witness :
  del_vertex "v0" fresh_world = Raise (KeyError "v0") ∧
  (run add_vertex 0 "v0";; del_vertex "v0") fresh_world = Ok (tt, fresh_world).
Proof.
  split.
  - apply (proj1 del_vertex_unbinds "v0" fresh_world). reflexivity.
  - apply (proj2 (proj2 del_vertex_unbinds) 0 "v0" fresh_world). reflexivity.
Defined.

(** ** [Vertex.__lt__] and [Vertex.__eq__] *)

(** X3: a vertex is less than itself exactly when its [x] is below its [z],
    and equal to itself exactly when its [x] equals its [z]: both methods
    compare [self.x] with [rhs.z]. *)
Theorem Vertex_compare_self :
  ∀ v : Vertex.t,
    (Vertex.lt v v = true ↔ (Vertex.x v < Vertex.z v)%Q) ∧
    (Vertex.eq v v = true ↔ (Vertex.x v == Vertex.z v)%Q).
Proof.
  intros [x y z name alias index]. unfold Vertex.lt, Vertex.eq. simpl.
  unfold num_eq, num_lt. rewrite !Qeq_bool_refl. simpl. split.
  - destruct (Qeq_bool x z) eqn:Heq; simpl.
    + apply Qeq_bool_iff in Heq. split; [done|].
      intros Hlt. rewrite Heq in Hlt. by apply Qlt_irrefl in Hlt.
    + rewrite negb_true_iff, <- not_true_iff_false, Qle_bool_iff.
      split; [apply Qnot_le_lt | apply Qlt_not_le].
  - apply Qeq_bool_iff.
Qed.

(** ** [HexBlock.face]: selectors *)

Lemma py_getitem_Ok_range {A} (l : list A) (i : Z) :
  is_Ok (py_getitem l i) ↔ (- Z.of_nat (length l) ≤ i < Z.of_nat (length l))%Z.
Proof.
  unfold py_getitem. split.
  - intros [a H]. destruct (i <? 0)%Z eqn:Hneg;
      destruct (_ && _) eqn:Hrange; try done;
      apply andb_true_iff in Hrange as [?%Z.leb_le ?%Z.ltb_lt];
      [apply Z.ltb_lt in Hneg | apply Z.ltb_ge in Hneg]; lia.
  - intros Hi.
    set (j := if (i <? 0)%Z then (i + Z.of_nat (length l))%Z else i).
    assert (0 ≤ j < Z.of_nat (length l))%Z as Hj.
    { unfold j. destruct (i <? 0)%Z eqn:Hneg;
        [apply Z.ltb_lt in Hneg | apply Z.ltb_ge in Hneg]; lia. }
    replace ((0 <=? j)%Z && (j <? Z.of_nat (length l))%Z) with true.
    2:{ symmetry. apply andb_true_iff.
        split; [apply Z.leb_le | apply Z.ltb_lt]; lia. }
    destruct (lookup_lt_is_Some_2 l (Z.to_nat j)) as [a Ha]; [lia|].
    rewrite Ha. by exists a.
Qed.

Lemma py_getitem_negative {A} (l : list A) (i : Z) :
  (- Z.of_nat (length l) ≤ i < 0)%Z →
  py_getitem l i = py_getitem l (i + Z.of_nat (length l)).
Proof.
  intros Hi. unfold py_getitem.
  replace (i <? 0)%Z with true by (symmetry; apply Z.ltb_lt; lia).
  by replace (i + Z.of_nat (length l) <? 0)%Z with false
    by (symmetry; apply Z.ltb_ge; lia).
Qed.

Lemma py_getitem_not_Ok {A} (l : list A) (i : Z) :
  ¬ is_Ok (py_getitem l i) → py_getitem l i = Raise IndexError.
Proof.
  unfold py_getitem. intros H.
  destruct (_ && _); [|done].
  destruct (l !! _) as [a|]; simpl; [|done].
  exfalso. apply H. by exists a.
Qed.

(** X4: on a block of 8 vertex names, [face] returns for the numbers -6..5
    and raises [IndexError] for any other number; a negative number [i]
    selects the face [i + 6]; a keyword outside the 18 spellings raises
    [KeyError] with that keyword, on any block. *)
Theorem face_selector_range :
  (∀ b i name, length (HexBlock.vnames b) = 8 →
     (is_Ok (HexBlock.face b (Ix i) name) ↔ (-6 ≤ i < 6)%Z) ∧
     (¬ (-6 ≤ i < 6)%Z → HexBlock.face b (Ix i) name = Raise IndexError)) ∧
  (∀ b i name, (-6 ≤ i < 0)%Z →
     HexBlock.face b (Ix i) name = HexBlock.face b (Ix (i + 6)) name) ∧
  (∀ b kw name, kw ∉ odict.keys HexBlock.kw_to_index →
     HexBlock.face b (Kw kw) name = Raise (KeyError kw)).
Proof.
  split; [|split].
  - intros [vn cells bname gr] i name Hlen. simpl in Hlen.
    apply length_8_inv in Hlen as (a0&a1&a2&a3&a4&a5&a6&a7&->).
    assert (Hno : ¬ (-6 ≤ i < 6)%Z →
              HexBlock.face
                (HexBlock.mk [a0; a1; a2; a3; a4; a5; a6; a7] cells bname gr)
                (Ix i) name = Raise IndexError).
    { intros Hi. unfold HexBlock.face. simpl.
      rewrite (py_getitem_not_Ok HexBlock.index_to_vertex i); [done|].
      by rewrite py_getitem_Ok_range. }
    split; [|done]. split.
    + intros [f Hf]. destruct (decide (-6 ≤ i < 6)%Z) as [|Hi]; [done|].
      by rewrite (Hno Hi) in Hf.
    + intros Hi.
      assert (i = -6 ∨ i = -5 ∨ i = -4 ∨ i = -3 ∨ i = -2 ∨ i = -1 ∨
              i = 0 ∨ i = 1 ∨ i = 2 ∨ i = 3 ∨ i = 4 ∨ i = 5)%Z
        as Hcases by lia.
      repeat (destruct Hcases as [-> | Hcases]; [destruct name; by eexists|]).
      subst i. destruct name; by eexists.
  - intros b i name Hi. unfold HexBlock.face. simpl.
    rewrite (py_getitem_negative HexBlock.index_to_vertex i) by (simpl; lia).
    rewrite (py_getitem_negative HexBlock.index_to_defaultsuffix i)
      by (simpl; lia).
    done.
  - intros b kw name Hkw. unfold HexBlock.face, odict.getitem.
    replace (odict.get HexBlock.kw_to_index kw) with (@None Z); [done|].
    symmetry. unfold HexBlock.kw_to_index in *. simpl in *.
    repeat (case_decide;
            [subst kw; exfalso; apply Hkw;
             repeat first [apply list_elem_of_here
                          | apply list_elem_of_further]|]).
    done.
Qed.

Lemma face_selector_range_witness :
  let b := HexBlock.mk ["v0"; "v1"; "v2"; "v3"; "v4"; "v5"; "v6"; "v7"]
             [1; 1; 1]%Z "b0" SimpleGrading.default in
  HexBlock.face b (Ix 6) None = Raise IndexError ∧
  HexBlock.face b (Ix (-1)) None = HexBlock.face b (Ix (-1 + 6)) None ∧
  HexBlock.face b (Kw "top") None = Raise (KeyError "top").
Proof.
  intros b. split; [|split].
  - apply (proj1 face_selector_range b 6%Z None); [reflexivity | lia].
  - apply (proj1 (proj2 face_selector_range) b (-1)%Z None). lia.
  - apply (proj2 (proj2 face_selector_range) b "top" None).
    intros H. simpl in H.
    repeat (apply elem_of_cons in H as [H|H]; [discriminate H|]).
    by apply elem_of_nil in H.
Defined.

Lemma py_getitem_same_length {A B} (l : list A) (l' : list B) (i : Z) a :
  length l = length l' → py_getitem l i = Ok a → is_Ok (py_getitem l' i).
Proof.
  intros Hlen H. apply py_getitem_Ok_range. rewrite <- Hlen.
  apply py_getitem_Ok_range. by exists a.
Qed.

(** X5: the [name] argument of [face] decides the name of the face and
    nothing else: with a name, [face] returns or raises as without one, and
    the face it returns has the same vertex names. *)
Theorem face_name_argument :
  ∀ (b : HexBlock.t) (index : face_selector) (name : string),
    HexBlock.face b index (Some name)
    = (λ f, Face.mk (Face.vnames f) name) <$> HexBlock.face b index None.
Proof.
  intros b index name. unfold HexBlock.face.
  destruct (match index with
            | Kw kw => odict.getitem HexBlock.kw_to_index kw
            | Ix i => Ok i
            end) as [i|e]; simpl; [|done].
  destruct (py_getitem HexBlock.index_to_vertex i) as [corners|e] eqn:Hc;
    simpl; [|done].
  destruct (mapM (py_getitem (HexBlock.vnames b)) corners) as [vn|e];
    simpl; [|done].
  destruct (py_getitem_same_length HexBlock.index_to_vertex
              HexBlock.index_to_defaultsuffix i corners eq_refl Hc)
    as [tmpl ->].
  done.
Qed.

(** X6: on a block of 8 vertex names the faces 0 and 1, the faces 2 and 3
    and the faces 4 and 5 each take every corner position of the block
    exactly once between them. *)
Theorem opposite_faces_cover_block :
  ∀ (b : HexBlock.t) (i : Z),
    length (HexBlock.vnames b) = 8 →
    i ∈ [0; 2; 4]%Z →
    ∃ f g,
      HexBlock.face b (Ix i) None = Ok f ∧
      HexBlock.face b (Ix (i + 1)) None = Ok g ∧
      Face.vnames f ++ Face.vnames g ≡ₚ HexBlock.vnames b.
Proof.
  intros [vn cells bname gr] i Hlen Hi. simpl in Hlen.
  apply length_8_inv in Hlen as (a0&a1&a2&a3&a4&a5&a6&a7&->).
  repeat (apply elem_of_cons in Hi as [-> | Hi];
          [do 2 eexists; split; [reflexivity|]; split; [reflexivity|];
           simpl; solve_Permutation|]).
  by apply elem_of_nil in Hi.
Qed.

Lemma opposite_faces_cover_block_witness :
  let b := HexBlock.mk ["v0"; "v1"; "v2"; "v3"; "v4"; "v5"; "v6"; "v7"]
             [1; 1; 1]%Z "b0" SimpleGrading.default in
  ∃ f g,
    HexBlock.face b (Ix 2) None = Ok f ∧
    HexBlock.face b (Ix (2 + 1)) None = Ok g ∧
    Face.vnames f ++ Face.vnames g ≡ₚ HexBlock.vnames b.
Proof.
  intros b. apply (opposite_faces_cover_block b 2%Z); [reflexivity|].
  apply list_elem_of_further, list_elem_of_here.
Defined.

(** ** [Boundary.add_face] *)

(** X7: [add_face] appends the face to the list of its boundary, and a
    boundary that refers to another list keeps its faces. *)
Theorem add_face_other_list :
  ∀ (b1 b2 : Boundary.t) (f : Face.t) (w w' : World),
    Boundary.faces b1 ≠ Boundary.faces b2 →
    Boundary_add_face b1 f w = Ok (tt, w') →
    Boundary_faces b1 w' = (λ l, l ++ [f]) <$> Boundary_faces b1 w ∧
    Boundary_faces b2 w' = Boundary_faces b2 w.
Proof.
  intros b1 b2 f w w' Hne. unfold Boundary_add_face, Boundary_faces.
  destruct (list_objs w !! Boundary.faces b1) as [l|] eqn:Hl; simpl; [|done].
  intros [= <-]. simpl. split.
  - apply list_lookup_insert_eq. by apply lookup_lt_Some in Hl.
  - by apply list_lookup_insert_ne.
Qed.

Lemma add_face_other_list_witness :
  let script :=
    do l1 <- new_list [];;
    do l2 <- new_list [];;
    do b1 <- add_boundary "wall" "walls" (Some l1);;
    do b2 <- add_boundary "patch" "inlet" (Some l2);;
    M_ret (b1, b2) in
  ∃ b1 b2 w w',
    script fresh_world = Ok ((b1, b2), w) ∧
    Boundary_add_face b1 (Face.mk ["v0"; "v4"; "v7"; "v3"] "f") w
    = Ok (tt, w') ∧
    Boundary_faces b1 w'
    = (λ l, l ++ [Face.mk ["v0"; "v4"; "v7"; "v3"] "f"])
        <$> Boundary_faces b1 w ∧
    Boundary_faces b2 w' = Boundary_faces b2 w.
Proof.
  intros script. eexists _, _, _, _.
  split; [vm_compute; reflexivity|].
  match goal with |- ?a = Ok (tt, _) ∧ _ =>
    assert (Hcall : a = Ok (tt, _)) by (vm_compute; reflexivity) end.
  split; [exact Hcall|].
  eapply add_face_other_list; [|exact Hcall]. discriminate.
Defined.

(** ** [reduce_vertex]: errors and what it leaves alone *)

Lemma reduce_vertex_body_state v w n w1 :
  reduce_vertex_body v w n = Ok w1 →
  ∃ r robj vobj,
    registry w !! n = Some r ∧
    vertex_objs w !! r = Some robj ∧
    vertex_objs w !! v = Some vobj ∧
    w1 = set_self
           (BlockMeshDict.set_vertices (<[n := v]> (registry w)) (self w))
           (set_vertex_objs
              (<[v := Vertex.set_alias
                        (Vertex.alias vobj ∪ Vertex.alias robj) vobj]>
                 (vertex_objs w)) w).
Proof.
  unfold reduce_vertex_body.
  destruct (registry w !! n) as [r|] eqn:Hn; simpl; [|done].
  destruct (vertex_objs w !! r) as [robj|] eqn:Hr; simpl; [|done].
  destruct (vertex_objs w !! v) as [vobj|] eqn:Hv; simpl; [|done].
  intros [= <-]. by exists r, robj, vobj.
Qed.

Lemma reduce_vertex_body_registered v w n :
  store_ok w → v < length (vertex_objs w) → is_Some (registry w !! n) →
  ∃ w1, reduce_vertex_body v w n = Ok w1 ∧ store_ok w1 ∧
        length (vertex_objs w1) = length (vertex_objs w) ∧
        ∀ m, is_Some (registry w1 !! m) ↔ is_Some (registry w !! m).
Proof.
  intros Hok Hv [r Hn].
  destruct (reduce_vertex_body_store_ok v w n Hok Hv)
    as [(w1 & Hbody & Hok1 & Hlen)|Hbody].
  - exists w1. split; [done|]. split; [done|]. split; [done|].
    apply reduce_vertex_body_Ok in Hbody as (?&?&?&?&?&?&Hreg&?).
    intros m. rewrite Hreg. destruct (decide (n = m)) as [<-|Hne].
    + rewrite lookup_insert_eq, Hn. split; by eexists.
    + by rewrite lookup_insert_ne.
  - unfold reduce_vertex_body in Hbody. rewrite Hn in Hbody. simpl in Hbody.
    destruct (vertex_objs w !! r); simpl in Hbody; [|done].
    by destruct (vertex_objs w !! v).
Qed.

Lemma reduce_vertex_loop_registered v names : ∀ w,
  store_ok w → v < length (vertex_objs w) →
  (∀ n, n ∈ names → is_Some (registry w !! n)) →
  is_Ok (for_each (reduce_vertex_body v) w names).
Proof.
  induction names as [|n names IH]; intros w Hok Hv Hreg; simpl.
  - by eexists.
  - destruct (reduce_vertex_body_registered v w n Hok Hv)
      as (w1 & -> & Hok1 & Hlen & Hdom); [apply Hreg, list_elem_of_here|].
    simpl. apply IH; [done|lia|].
    intros m Hm. by apply Hdom, Hreg, list_elem_of_further.
Qed.

Lemma reduce_vertex_loop_first_missing v pre : ∀ w n post,
  store_ok w → v < length (vertex_objs w) →
  (∀ m, m ∈ pre → is_Some (registry w !! m)) →
  registry w !! n = None →
  for_each (reduce_vertex_body v) w (pre ++ n :: post) = Raise (KeyError n).
Proof.
  induction pre as [|m pre IH]; intros w n post Hok Hv Hreg Hn; simpl.
  - unfold reduce_vertex_body. by rewrite Hn.
  - destruct (reduce_vertex_body_registered v w m Hok Hv)
      as (w1 & -> & Hok1 & Hlen & Hdom); [apply Hreg, list_elem_of_here|].
    simpl. apply IH; [done|lia| |].
    + intros k Hk. by apply Hdom, Hreg, list_elem_of_further.
    + apply eq_None_not_Some. rewrite Hdom. by rewrite Hn; intros [? ?].
Qed.

(** X8: on a well-formed state [reduce_vertex] returns when all its names
    are registered, and otherwise raises [KeyError] with the first of
    [name1, name2, ...] that is not. *)
Theorem reduce_vertex_raises :
  ∀ (name1 : string) (names : list string) (w : World),
    store_ok w →
    ((∀ n, n ∈ name1 :: names → is_Some (registry w !! n)) →
     is_Ok (reduce_vertex name1 names w)) ∧
    (∀ pre n post,
       name1 :: names = pre ++ n :: post →
       (∀ m, m ∈ pre → is_Some (registry w !! m)) →
       registry w !! n = None →
       reduce_vertex name1 names w = Raise (KeyError n)).
Proof.
  intros name1 names w Hok. split.
  - intros Hreg.
    destruct (Hreg name1) as [v Hname1]; [apply list_elem_of_here|].
    unfold reduce_vertex. rewrite Hname1. simpl.
    destruct (reduce_vertex_loop_registered v names w Hok) as [w' ->].
    + apply lookup_lt_is_Some. by eapply store_ok_registry.
    + intros n Hn. by apply Hreg, list_elem_of_further.
    + by eexists.
  - intros pre n post Heq Hreg Hn. unfold reduce_vertex.
    destruct pre as [|m pre]; simpl in Heq; injection Heq as <- ->.
    + by rewrite Hn.
    + destruct (Hreg name1) as [v Hname1]; [apply list_elem_of_here|].
      rewrite Hname1. simpl.
      rewrite (reduce_vertex_loop_first_missing v pre w n post); [done|done| | |done].
      * apply lookup_lt_is_Some. by eapply store_ok_registry.
      * intros k Hk. by apply Hreg, list_elem_of_further.
Qed.

Lemma reduce_vertex_raises_witness :
  let w :=
    mkWorld [Vertex.init 0 0 0 "v0"; Vertex.init 0 0 0 "v0b"] [ []; [] ] []
      (BlockMeshDict.set_vertices {[ "v0" := 0; "v0b" := 1 ]}
         BlockMeshDict.init) in
  store_ok w ∧
  reduce_vertex "v0" ["v0b"; "v1"; "v2"] w = Raise (KeyError "v1").
Proof.
  intros w.
  assert (Hok : store_ok w) by (apply (bool_decide_unpack _); by vm_compute).
  split; [exact Hok|].
  apply (proj2 (reduce_vertex_raises "v0" ["v0b"; "v1"; "v2"] w Hok)
           ["v0"; "v0b"] "v1" ["v2"]).
  - reflexivity.
  - intros m Hm.
    repeat (apply elem_of_cons in Hm as [-> | Hm]; [by eexists|]).
    by apply elem_of_nil in Hm.
  - reflexivity.
Defined.

(** The loop of [reduce_vertex] rebinds the names it is given and merges
    into the instance [v]; it changes nothing else. *)
Lemma reduce_vertex_loop_frame v names : ∀ w w' vobj,
  for_each (reduce_vertex_body v) w names = Ok w' →
  vertex_objs w !! v = Some vobj →
  list_objs w' = list_objs w ∧
  stdout w' = stdout w ∧
  BlockMeshDict.set_vertices (registry w) (self w') = self w ∧
  length (vertex_objs w') = length (vertex_objs w) ∧
  (∀ r, r ≠ v → vertex_objs w' !! r = vertex_objs w !! r) ∧
  (∀ n, is_Some (registry w' !! n) ↔ is_Some (registry w !! n)) ∧
  (∀ vobj' a,
     vertex_objs w' !! v = Some vobj' → a ∈ Vertex.alias vobj' →
     a ∈ Vertex.alias vobj ∨
     ∃ n r robj, n ∈ names ∧ registry w !! n = Some r ∧
                 vertex_objs w !! r = Some robj ∧ a ∈ Vertex.alias robj).
Proof.
  induction names as [|m names IH]; intros w w' vobj Hloop Hv; simpl in Hloop.
  - injection Hloop as <-. split_and!; try done.
    + by destruct w as [? ? ? []].
    + intros vobj' a Hv' Ha. rewrite Hv in Hv'. injection Hv' as <-. by left.
  - destruct (reduce_vertex_body v w m) as [w1|] eqn:Hbody;
      simpl in Hloop; [|done].
    apply reduce_vertex_body_state in Hbody
      as (r & robj & vobj0 & Hm & Hr & Hv0 & ->).
    rewrite Hv in Hv0. injection Hv0 as <-.
    set (vobj1 := Vertex.set_alias (Vertex.alias vobj ∪ Vertex.alias robj) vobj)
      in *.
    assert (Hlt : v < length (vertex_objs w)) by by apply lookup_lt_Some in Hv.
    edestruct (IH _ w' vobj1 Hloop)
      as (Hlists & Hout & Hself & Hlen & Hobjs & Hdom & Hal).
    { simpl. by apply list_lookup_insert_eq. }
    simpl in *. rewrite length_insert in Hlen.
    split_and!; try done.
    + clear -Hself. destruct (self w'), (self w).
      unfold BlockMeshDict.set_vertices in *. simpl in *. congruence.
    + intros r0 Hr0. rewrite (Hobjs r0 Hr0). by apply list_lookup_insert_ne.
    + intros n. rewrite Hdom. destruct (decide (m = n)) as [<-|Hne].
      * rewrite lookup_insert_eq, Hm. split; by eexists.
      * by rewrite lookup_insert_ne.
    + intros vobj' a Hv' Ha.
      assert (Hcase1 : a ∈ Vertex.alias vobj1 →
                a ∈ Vertex.alias vobj ∨
                ∃ n r robj, n ∈ m :: names ∧ registry w !! n = Some r ∧
                            vertex_objs w !! r = Some robj ∧
                            a ∈ Vertex.alias robj).
      { intros [Ha1|Ha1]%elem_of_union; [by left|].
        right. exists m, r, robj. split; [apply list_elem_of_here|done]. }
      destruct (Hal vobj' a Hv' Ha) as [Ha1|(n & r0 & robj0 & Hn & Hn0 & Hr0 & Ha0)];
        [by apply Hcase1|].
      destruct (decide (m = n)) as [<-|Hne].
      * rewrite lookup_insert_eq in Hn0. injection Hn0 as <-.
        rewrite list_lookup_insert_eq in Hr0 by done. injection Hr0 as <-.
        by apply Hcase1.
      * rewrite lookup_insert_ne in Hn0 by done.
        destruct (decide (r0 = v)) as [->|Hr0v].
        -- rewrite list_lookup_insert_eq in Hr0 by done. injection Hr0 as <-.
           by apply Hcase1.
        -- rewrite list_lookup_insert_ne in Hr0 by done.
           right. exists n, r0, robj0.
           split; [by apply list_elem_of_further|done].
Qed.

(** X9: a successful [reduce_vertex] binds no new name and unbinds none,
    keeps the binding of every name outside [names], leaves every instance
    other than that of [name1] as it was, and changes nothing else of the
    state but the registry. *)
Theorem reduce_vertex_frame :
  ∀ (name1 : string) (names : list string) (w w' : World) (v : loc),
    store_ok w →
    registry w !! name1 = Some v →
    reduce_vertex name1 names w = Ok (tt, w') →
    (∀ n, n ∉ names → registry w' !! n = registry w !! n) ∧
    (∀ n, is_Some (registry w' !! n) ↔ is_Some (registry w !! n)) ∧
    (∀ r, r ≠ v → vertex_objs w' !! r = vertex_objs w !! r) ∧
    length (vertex_objs w') = length (vertex_objs w) ∧
    list_objs w' = list_objs w ∧
    stdout w' = stdout w ∧
    BlockMeshDict.set_vertices (registry w) (self w') = self w.
Proof.
  intros name1 names w w' v Hok Hname1 H. unfold reduce_vertex in H.
  rewrite Hname1 in H. simpl in H.
  destruct (for_each (reduce_vertex_body v) w names) as [w1|] eqn:Hloop;
    simpl in H; [|done].
  injection H as <-.
  destruct (store_ok_registry _ _ _ Hok Hname1) as [vobj Hv].
  destruct (reduce_vertex_loop_frame v names w w1 vobj Hloop Hv)
    as (Hlists & Hout & Hself & Hlen & Hobjs & Hdom & _).
  destruct (reduce_vertex_loop v names w w1 vobj Hloop Hv)
    as (_ & _ & _ & _ & _ & Hkeep & _).
  by split_and!.
Qed.

(** X10: after a successful [reduce_vertex] the alias set of the instance
    of [name1] is exactly what it was together with the alias sets that the
    instances of [names] had: nothing is lost and nothing else is added. *)
Theorem reduce_vertex_alias_union :
  ∀ (name1 : string) (names : list string) (w w' : World) (v : loc)
    (vobj : Vertex.t),
    registry w !! name1 = Some v →
    vertex_objs w !! v = Some vobj →
    reduce_vertex name1 names w = Ok (tt, w') →
    ∃ vobj',
      vertex_objs w' !! v = Some vobj' ∧
      ∀ a, a ∈ Vertex.alias vobj' ↔
           a ∈ Vertex.alias vobj ∨
           ∃ n r robj, n ∈ names ∧ registry w !! n = Some r ∧
                       vertex_objs w !! r = Some robj ∧
                       a ∈ Vertex.alias robj.
Proof.
  intros name1 names w w' v vobj Hname1 Hv H. unfold reduce_vertex in H.
  rewrite Hname1 in H. simpl in H.
  destruct (for_each (reduce_vertex_body v) w names) as [w1|] eqn:Hloop;
    simpl in H; [|done].
  injection H as <-.
  destruct (reduce_vertex_loop_frame v names w w1 vobj Hloop Hv)
    as (_ & _ & _ & _ & _ & _ & Hupper).
  destruct (reduce_vertex_loop v names w w1 vobj Hloop Hv)
    as (vobj' & Hv' & _ & Hsub & _ & _ & Hlower).
  exists vobj'. split; [done|]. intros a. split.
  - by apply Hupper.
  - intros [Ha|(n & r & robj & Hn & Hn0 & Hr & Ha)].
    + by apply Hsub.
    + by apply (Hlower n r robj Hn Hn0 Hr).
Qed.

Lemma reduce_vertex_frame_witness :
  let w :=
    mkWorld [Vertex.init 0 0 0 "v0"; Vertex.init 0 0 0 "v0b";
             Vertex.init 1 0 0 "v1"] [ []; [] ] []
      (BlockMeshDict.set_vertices {[ "v0" := 0; "v0b" := 1; "v1" := 2 ]}
         BlockMeshDict.init) in
  ∃ w',
    store_ok w ∧ registry w !! "v0" = Some 0 ∧
    reduce_vertex "v0" ["v0b"] w = Ok (tt, w') ∧
    (∀ n, n ∉ ["v0b"] → registry w' !! n = registry w !! n) ∧
    (∀ n, is_Some (registry w' !! n) ↔ is_Some (registry w !! n)) ∧
    (∀ r, r ≠ 0 → vertex_objs w' !! r = vertex_objs w !! r) ∧
    length (vertex_objs w') = length (vertex_objs w) ∧
    list_objs w' = list_objs w ∧
    stdout w' = stdout w ∧
    BlockMeshDict.set_vertices (registry w) (self w') = self w.
Proof.
  intros w.
  destruct (reduce_vertex "v0" ["v0b"] w) as [[[] w']|] eqn:Hcall;
    [|by vm_compute in Hcall].
  assert (Hok : store_ok w) by (apply (bool_decide_unpack _); by vm_compute).
  exists w'. split; [exact Hok|]. split; [reflexivity|].
  split; [reflexivity|].
  exact (reduce_vertex_frame "v0" ["v0b"] w w' 0 Hok eq_refl Hcall).
Defined.

Lemma reduce_vertex_alias_union_witness :
  let w :=
    mkWorld [Vertex.init 0 0 0 "v0"; Vertex.init 0 0 0 "v0b"] [ []; [] ] []
      (BlockMeshDict.set_vertices {[ "v0" := 0; "v0b" := 1 ]}
         BlockMeshDict.init) in
  ∃ w' vobj',
    reduce_vertex "v0" ["v0b"] w = Ok (tt, w') ∧
    vertex_objs w' !! 0 = Some vobj' ∧
    ∀ a, a ∈ Vertex.alias vobj' ↔
         a ∈ Vertex.alias (Vertex.init 0 0 0 "v0") ∨
         ∃ n r robj, n ∈ ["v0b"] ∧ registry w !! n = Some r ∧
                     vertex_objs w !! r = Some robj ∧
                     a ∈ Vertex.alias robj.
Proof.
  intros w.
  destruct (reduce_vertex "v0" ["v0b"] w) as [[[] w']|] eqn:Hcall;
    [|by vm_compute in Hcall].
  destruct (reduce_vertex_alias_union "v0" ["v0b"] w w' 0
              (Vertex.init 0 0 0 "v0") eq_refl eq_refl Hcall)
    as (vobj' & Hv' & Halias).
  by exists w', vobj'.
Defined.

(** ** [sorted] reads the list only through [lt] *)

Section SortedExt.
Context {A : Type} (lt lt' : A → A → bool).
Hypothesis lt_ext : ∀ a b, lt a b = lt' a b.

Lemma run_ascending_ext l : ∀ prev,
  run_ascending lt prev l = run_ascending lt' prev l.
Proof.
  induction l as [|x l IH]; intros prev; simpl; [done|].
  by rewrite lt_ext, IH.
Qed.

Lemma run_descending_ext l : ∀ prev,
  run_descending lt prev l = run_descending lt' prev l.
Proof.
  induction l as [|x l IH]; intros prev; simpl; [done|].
  by rewrite lt_ext, IH.
Qed.

Lemma count_run_ext l : count_run lt l = count_run lt' l.
Proof.
  destruct l as [|a [|b l]]; simpl; [done..|].
  by rewrite lt_ext, run_ascending_ext, run_descending_ext.
Qed.

Lemma bisect_ext fuel pivot pre : ∀ l r,
  bisect lt fuel pivot pre l r = bisect lt' fuel pivot pre l r.
Proof.
  induction fuel as [|fuel IH]; intros l r; cbn -[Nat.div]; [done|].
  case_decide; [|done].
  destruct (pre !! (l + (r - l) / 2)) as [x|]; [|done].
  by rewrite lt_ext, !IH.
Qed.

Lemma binarysort_ext rest : ∀ pre,
  binarysort lt pre rest = binarysort lt' pre rest.
Proof.
  induction rest as [|pivot rest IH]; intros pre; simpl; [done|].
  by rewrite bisect_ext, IH.
Qed.

Lemma sorted_ext l : sorted lt l = sorted lt' l.
Proof.
  unfold sorted. case_decide; [done|].
  rewrite count_run_ext. destruct (count_run lt' l) as [n descending].
  apply binarysort_ext.
Qed.
End SortedExt.

Lemma for_each_ext {S A} (f g : S → A → result S) (l : list A) : ∀ s,
  (∀ s a, f s a = g s a) → for_each f s l = for_each g s l.
Proof.
  induction l as [|a l IH]; intros s H; simpl; [done|].
  rewrite H. destruct (g s a); simpl; [by apply IH | done].
Qed.

(** ** [assign_vertexid]: errors, frame and repetition *)

Lemma gather_body_registered w st n :
  store_ok w → is_Some (registry w !! n) → is_Ok (gather_body w st n).
Proof.
  intros Hok [v Hn]. unfold gather_body. rewrite Hn. simpl.
  destruct (store_ok_registry _ _ _ Hok Hn) as [vobj ->]. simpl.
  case_decide; by eexists.
Qed.

Lemma gather_loop_registered w names : ∀ st,
  store_ok w → (∀ n, n ∈ names → is_Some (registry w !! n)) →
  is_Ok (for_each (gather_body w) st names).
Proof.
  induction names as [|n names IH]; intros st Hok Hreg; simpl; [by eexists|].
  destruct (gather_body_registered w st n Hok) as [st' ->];
    [apply Hreg, list_elem_of_here|].
  simpl. apply IH; [done|]. intros m Hm. by apply Hreg, list_elem_of_further.
Qed.

Lemma gather_loop_first_missing w pre : ∀ st n post,
  store_ok w → (∀ m, m ∈ pre → is_Some (registry w !! m)) →
  registry w !! n = None →
  for_each (gather_body w) st (pre ++ n :: post) = Raise (KeyError n).
Proof.
  induction pre as [|m pre IH]; intros st n post Hok Hreg Hn; simpl.
  - unfold gather_body. by rewrite Hn.
  - destruct (gather_body_registered w st m Hok) as [st' ->];
      [apply Hreg, list_elem_of_here|].
    simpl. apply IH; [done| |done].
    intros k Hk. by apply Hreg, list_elem_of_further.
Qed.

Lemma assign_vertexid_after_gather w st :
  store_ok w → gather w = Ok st → is_Ok (assign_vertexid w).
Proof.
  intros Hok Hg.
  destruct (assign_vertexid_with_store_ok _ (@sorted_Permutation loc) w Hok)
    as [(w' & H & _)|(n & _ & H)]; [by eexists|].
  unfold assign_vertexid in *. unfold assign_vertexid_with in H.
  rewrite Hg in H. simpl in H.
  set (vs := sorted _ _) in H.
  assert (Hvs : Forall (λ v, v < length (vertex_objs w)) vs).
  { apply Forall_forall. intros v Hv. unfold vs in Hv.
    rewrite sorted_Permutation in Hv.
    apply (gathered_valid _ _ _ (gather_gathered _ _ Hg)) in Hv
      as (_ & vobj & _ & _ & Hv & _).
    by apply lookup_lt_Some in Hv. }
  destruct (assign_indices_is_Ok vs 0 _ Hvs) as [objs Ha].
  by rewrite Ha in H.
Qed.

(** X11: on a well-formed state [assign_vertexid] returns when every vertex
    name of every block is registered, and otherwise raises [KeyError] with
    the first vertex name, in the order of the blocks and of their corners,
    that is not. *)
Theorem assign_vertexid_raises :
  ∀ w : World,
    store_ok w →
    ((∀ b n, b ∈ odict.values (BlockMeshDict.blocks (self w)) →
             n ∈ HexBlock.vnames b → is_Some (registry w !! n)) →
     is_Ok (assign_vertexid w)) ∧
    (∀ pre n post,
       all_vnames w = pre ++ n :: post →
       (∀ m, m ∈ pre → is_Some (registry w !! m)) →
       registry w !! n = None →
       assign_vertexid w = Raise (KeyError n)).
Proof.
  intros w Hok. split.
  - intros Hreg.
    destruct (gather_loop_registered w (all_vnames w) (∅, []) Hok)
      as [st Hg].
    { intros n (ns & Hn & (b & -> & Hb)%list_elem_of_fmap)%elem_of_concat.
      by apply (Hreg b). }
    rewrite <- gather_flat in Hg. by eapply assign_vertexid_after_gather.
  - intros pre n post Hall Hreg Hn.
    unfold assign_vertexid, assign_vertexid_with.
    rewrite gather_flat, Hall.
    by rewrite (gather_loop_first_missing w pre (∅, []) n post Hok Hreg Hn).
Qed.

Lemma assign_vertexid_raises_witness :
  let script :=
    do v0 <- new_Vertex 0 0 0 "v0";;
    run add_vertex v0 "v0";;
    run add_hexblock ["v0"; "v1"; "v2"; "v3"; "v4"; "v5"; "v6"; "v7"]
          [1; 1; 1]%Z "b0" None;;
    M_ret tt in
  ∃ w, script fresh_world = Ok (tt, w) ∧ store_ok w ∧
       assign_vertexid w = Raise (KeyError "v1").
Proof.
  intros script. eexists. split; [vm_compute; reflexivity|].
  match goal with |- store_ok ?w ∧ _ =>
    assert (Hok : store_ok w)
      by (apply (bool_decide_unpack _); by vm_compute) end.
  split; [exact Hok|].
  apply (proj2 (assign_vertexid_raises _ Hok)
           ["v0"] "v1" ["v2"; "v3"; "v4"; "v5"; "v6"; "v7"]).
  - reflexivity.
  - intros m Hm.
    repeat (apply elem_of_cons in Hm as [-> | Hm]; [by eexists|]).
    by apply elem_of_nil in Hm.
  - reflexivity.
Defined.

Lemma same_but_index_refl a : same_but_index a a.
Proof. by repeat split. Qed.

Lemma same_but_index_trans a b c :
  same_but_index a b → same_but_index b c → same_but_index a c.
Proof.
  intros (?&?&?&?&?) (?&?&?&?&?). repeat split; congruence.
Qed.

Lemma assign_indices_same_but_index vs : ∀ i objs objs',
  assign_indices i vs objs = Ok objs' →
  length objs' = length objs ∧
  ∀ v vobj, objs !! v = Some vobj →
            ∃ vobj', objs' !! v = Some vobj' ∧ same_but_index vobj vobj'.
Proof.
  induction vs as [|v0 vs IH]; intros i objs objs' H; simpl in H.
  - injection H as <-. split; [done|]. intros v vobj Hv. exists vobj.
    split; [done | apply same_but_index_refl].
  - destruct (objs !! v0) as [vobj0|] eqn:Hv0; simpl in H; [|done].
    destruct (IH _ _ _ H) as (Hlen & Hsame).
    rewrite length_insert in Hlen. split; [done|].
    intros v vobj Hv. destruct (decide (v = v0)) as [->|Hne].
    + rewrite Hv0 in Hv. injection Hv as <-.
      destruct (Hsame v0 (Vertex.set_index (Some i) vobj0))
        as (vobj' & Hv' & Hs).
      { apply list_lookup_insert_eq. by apply lookup_lt_Some in Hv0. }
      exists vobj'. split; [done|].
      eapply same_but_index_trans; [|exact Hs]. by destruct vobj0.
    + apply Hsame. by rewrite list_lookup_insert_ne.
Qed.

(** X12: a successful [assign_vertexid] changes [valid_vertices] and the
    [index] of instances; the registries, the lists of faces, the output
    and the coordinates, name and alias set of every instance are as
    before. *)
Theorem assign_vertexid_frame :
  ∀ w w' : World,
    assign_vertexid w = Ok (tt, w') →
    BlockMeshDict.set_valid_vertices (BlockMeshDict.valid_vertices (self w))
      (self w') = self w ∧
    list_objs w' = list_objs w ∧
    stdout w' = stdout w ∧
    length (vertex_objs w') = length (vertex_objs w) ∧
    ∀ v vobj, vertex_objs w !! v = Some vobj →
              ∃ vobj', vertex_objs w' !! v = Some vobj' ∧
                       same_but_index vobj vobj'.
Proof.
  intros w w' H. unfold assign_vertexid, assign_vertexid_with in H.
  destruct (gather w) as [st|]; simpl in H; [|done].
  destruct (assign_indices _ _ _) as [objs|] eqn:Ha; simpl in H; [|done].
  injection H as <-. simpl.
  destruct (assign_indices_same_but_index _ _ _ _ Ha) as (Hlen & Hsame).
  split_and!; try done. by destruct (self w).
Qed.

Lemma assign_vertexid_frame_witness :
  ∃ w w',
    unit_cube fresh_world = Ok (tt, w) ∧
    assign_vertexid w = Ok (tt, w') ∧
    BlockMeshDict.set_valid_vertices (BlockMeshDict.valid_vertices (self w))
      (self w') = self w ∧
    list_objs w' = list_objs w ∧
    stdout w' = stdout w ∧
    length (vertex_objs w') = length (vertex_objs w) ∧
    ∀ v vobj, vertex_objs w !! v = Some vobj →
              ∃ vobj', vertex_objs w' !! v = Some vobj' ∧
                       same_but_index vobj vobj'.
Proof.
  eexists _, _. split; [vm_compute; reflexivity|].
  match goal with |- ?a = Ok (tt, _) ∧ _ =>
    assert (Hcall : a = Ok (tt, _)) by (vm_compute; reflexivity) end.
  split; [exact Hcall|].
  exact (assign_vertexid_frame _ _ Hcall).
Defined.

Lemma gather_body_ext w w2 st n :
  registry w2 = registry w →
  (∀ v, Vertex.name <$> vertex_objs w2 !! v
        = Vertex.name <$> vertex_objs w !! v) →
  gather_body w2 st n = gather_body w st n.
Proof.
  intros Hreg Hnames. unfold gather_body. rewrite Hreg.
  destruct (registry w !! n) as [v|]; simpl; [|done].
  specialize (Hnames v).
  destruct (vertex_objs w2 !! v) as [o2|], (vertex_objs w !! v) as [o|];
    simpl in *; try done.
  injection Hnames as ->. done.
Qed.

Lemma gather_ext w w2 :
  registry w2 = registry w →
  BlockMeshDict.blocks (self w2) = BlockMeshDict.blocks (self w) →
  (∀ v, Vertex.name <$> vertex_objs w2 !! v
        = Vertex.name <$> vertex_objs w !! v) →
  gather w2 = gather w.
Proof.
  intros Hreg Hblocks Hnames. rewrite !gather_flat. unfold all_vnames.
  rewrite Hblocks. apply for_each_ext. intros st n.
  by apply gather_body_ext.
Qed.

Lemma Vertex_lt_at_ext objs objs2 a b :
  length objs2 = length objs →
  (∀ v vobj, objs !! v = Some vobj →
             ∃ vobj', objs2 !! v = Some vobj' ∧ same_but_index vobj vobj') →
  Vertex_lt_at objs2 a b = Vertex_lt_at objs a b.
Proof.
  intros Hlen Hsame. unfold Vertex_lt_at.
  assert (Hnone : ∀ v, objs !! v = None → objs2 !! v = None).
  { intros v Hv. apply lookup_ge_None. rewrite Hlen.
    by apply lookup_ge_None. }
  destruct (objs !! a) as [va|] eqn:Ha.
  - destruct (Hsame a va Ha) as (va' & -> & (Hx & Hy & Hz & _)).
    destruct (objs !! b) as [vb|] eqn:Hb.
    + destruct (Hsame b vb Hb) as (vb' & -> & (Hx' & Hy' & Hz' & _)).
      unfold Vertex.lt. by rewrite Hx, Hy, Hz, Hy', Hz'.
    + by rewrite (Hnone b Hb).
  - by rewrite (Hnone a Ha).
Qed.

(** Numbering instances that already carry their numbers changes nothing. *)
Lemma assign_indices_again vs : ∀ i objs,
  (∀ k v, vs !! k = Some v →
     ∃ vobj, objs !! v = Some vobj ∧ Vertex.index vobj = Some (i + k)) →
  assign_indices i vs objs = Ok objs.
Proof.
  induction vs as [|v0 vs IH]; intros i objs H; simpl; [done|].
  destruct (H 0 v0 eq_refl) as (vobj0 & Hv0 & Hi0).
  rewrite Hv0. simpl. rewrite Nat.add_0_r in Hi0.
  replace (Vertex.set_index (Some i) vobj0) with vobj0
    by (destruct vobj0; simpl in *; by subst).
  rewrite list_insert_id by done. apply IH. intros k v Hk.
  destruct (H (S k) v Hk) as (vobj & Hv & Hi). exists vobj.
  split; [done|]. by replace (S i + k) with (i + S k) by lia.
Qed.

(** X13: once [assign_vertexid] has succeeded, calling it again on the
    state it returned succeeds and returns that same state: the same
    [valid_vertices] in the same order and the same indices. *)
Theorem assign_vertexid_idempotent :
  ∀ w w' : World,
    assign_vertexid w = Ok (tt, w') →
    assign_vertexid w' = Ok (tt, w').
Proof.
  intros w w' H. unfold assign_vertexid, assign_vertexid_with in H.
  destruct (gather w) as [st|] eqn:Hg; simpl in H; [|done].
  set (vs := sorted (Vertex_lt_at (vertex_objs w)) st.2) in *.
  destruct (assign_indices 0 vs (vertex_objs w)) as [objs|] eqn:Ha;
    simpl in H; [|done].
  injection H as <-.
  destruct (assign_indices_same_but_index _ _ _ _ Ha) as (Hlen & Hsame).
  assert (Hnd : NoDup vs).
  { unfold vs. rewrite sorted_Permutation.
    by apply (gathered_NoDup _ _ _ (gather_gathered _ _ Hg)). }
  destruct (assign_indices_spec vs 0 _ _ Hnd Ha) as (_ & Hin & _).
  unfold assign_vertexid, assign_vertexid_with.
  rewrite (gather_ext w); [| by destruct (self w) | by destruct (self w) |].
  2:{ intros v. simpl.
      destruct (vertex_objs w !! v) as [vobj|] eqn:Hv.
      - destruct (Hsame v vobj Hv) as (vobj' & -> & (_ & _ & _ & Hname & _)).
        simpl. by rewrite Hname.
      - rewrite (proj2 (lookup_ge_None objs v)); [done|].
        rewrite Hlen. by apply lookup_ge_None. }
  rewrite Hg. simpl.
  rewrite (sorted_ext _ (Vertex_lt_at (vertex_objs w)))
    by (intros a b; by apply Vertex_lt_at_ext).
  fold vs. rewrite assign_indices_again.
  - simpl. by destruct w as [? ? ? []].
  - intros k v Hk. destruct (Hin k v Hk) as (vobj & _ & Hv').
    eexists. split; [exact Hv'|]. by destruct vobj.
Qed.

Lemma assign_vertexid_idempotent_witness :
  ∃ w w',
    unit_cube fresh_world = Ok (tt, w) ∧
    assign_vertexid w = Ok (tt, w') ∧
    assign_vertexid w' = Ok (tt, w').
Proof.
  eexists _, _. split; [vm_compute; reflexivity|].
  match goal with |- ?a = Ok (tt, _) ∧ _ =>
    assert (Hcall : a = Ok (tt, _)) by (vm_compute; reflexivity) end.
  split; [exact Hcall|].
  exact (assign_vertexid_idempotent _ _ Hcall).
Defined.

(** X14: with no block in the document [assign_vertexid] succeeds with an
    empty [valid_vertices], whatever the registry holds, leaves every
    instance as it was, and the vertices section then has no entry. *)
Theorem assign_vertexid_no_blocks :
  ∀ (format_g : Q → result string) (set_iter : gset string → list string)
    (w : World),
    BlockMeshDict.blocks (self w) = [] →
    ∃ w', assign_vertexid w = Ok (tt, w') ∧
      BlockMeshDict.valid_vertices (self w') = Some [] ∧
      vertex_objs w' = vertex_objs w ∧
      fst <$> format_vertices_section format_g set_iter w'
      = Ok ("vertices" +:+ nl +:+ "(" +:+ nl +:+ ");").
Proof.
  intros format_g set_iter w Hblocks.
  unfold assign_vertexid, assign_vertexid_with, gather. rewrite Hblocks.
  simpl. eexists. split; [done|]. by repeat split.
Qed.

Lemma assign_vertexid_no_blocks_witness :
  ∃ w', assign_vertexid fresh_world = Ok (tt, w') ∧
    BlockMeshDict.valid_vertices (self w') = Some [] ∧
    vertex_objs w' = vertex_objs fresh_world ∧
    fst <$> format_vertices_section (λ _, Ok "") elements w'
    = Ok ("vertices" +:+ nl +:+ "(" +:+ nl +:+ ");").
Proof.
  apply (assign_vertexid_no_blocks (λ _, Ok "") elements fresh_world).
  reflexivity.
Defined.

(** ** The formatters *)

Lemma mapM_result_app {A B} (f : A → result B) (l1 l2 : list A) :
  mapM f (l1 ++ l2)
  = (k1 ← mapM f l1; k2 ← mapM f l2; Ok (k1 ++ k2)).
Proof.
  induction l1 as [|a l1 IH]; simpl.
  - by destruct (mapM f l2).
  - destruct (f a); simpl; [|done]. rewrite IH.
    destruct (mapM f l1); simpl; [|done]. by destruct (mapM f l2).
Qed.

Lemma mapM_result_first_error {A B} (f : A → result B) pre a post e :
  (∀ x, x ∈ pre → is_Ok (f x)) → f a = Raise e →
  mapM f (pre ++ a :: post) = Raise e.
Proof.
  intros Hpre Ha. rewrite mapM_result_app.
  destruct (mapM_result_is_Ok f pre Hpre) as [k ->]. simpl.
  by rewrite Ha.
Qed.

Lemma mapM_result_Forall2 {A B K} (f : A → result B) (g : K → B)
    (P : A → K → Prop) (l : list A) :
  (∀ a, a ∈ l → ∃ k, P a k ∧ f a = Ok (g k)) →
  ∃ ks, Forall2 P l ks ∧ mapM f l = Ok (g <$> ks).
Proof.
  induction l as [|a l IH]; intros H; simpl.
  - exists []. by split; [constructor|].
  - destruct (H a) as (k & HP & ->); [apply list_elem_of_here|].
    destruct IH as (ks & HF & ->).
    { intros x Hx. by apply H, list_elem_of_further. }
    exists (k :: ks). by split; [constructor|].
Qed.

Lemma py_getitem_lookup {A} (l : list A) (i : nat) (a : A) :
  l !! i = Some a → py_getitem l (Z.of_nat i) = Ok a.
Proof.
  intros H. pose proof (lookup_lt_Some _ _ _ H) as Hlt. unfold py_getitem.
  replace (Z.of_nat i <? 0)%Z with false by (symmetry; apply Z.ltb_ge; lia).
  replace ((0 <=? Z.of_nat i)%Z && (Z.of_nat i <? Z.of_nat (length l))%Z)
    with true.
  - by rewrite Nat2Z.id, H.
  - symmetry. apply andb_true_iff.
    split; [apply Z.leb_le | apply Z.ltb_lt]; lia.
Qed.

Lemma assign_vertexid_state w w' :
  assign_vertexid w = Ok (tt, w') →
  registry w' = registry w ∧
  BlockMeshDict.blocks (self w') = BlockMeshDict.blocks (self w).
Proof.
  unfold assign_vertexid, assign_vertexid_with. intros H.
  destruct (gather w); simpl in H; [|done].
  destruct (assign_indices _ _ _); simpl in H; [|done].
  by injection H as <-.
Qed.

(** X15: after a successful [assign_vertexid] on a document whose
    referenced instances have distinct names, the numbers a block prints
    for its vertex names are positions in [valid_vertices], each the
    position of the instance the name is registered for; so the blocks
    section refers to the entries of the vertices section.  The line of a
    block with at least three cell counts carries these numbers whenever
    its grading and its first three cell counts can be rendered. *)
Theorem block_indices_are_positions :
  ∀ (format_gs str_num : Q → result string) (format_d : Z → result string)
    (w w' : World) (vs : list loc) (b : HexBlock.t),
    distinct_names w →
    assign_vertexid w = Ok (tt, w') →
    BlockMeshDict.valid_vertices (self w') = Some vs →
    b ∈ odict.values (BlockMeshDict.blocks (self w')) →
    ∃ ks : list nat,
      Forall2 (λ n k, ∃ v, registry w' !! n = Some v ∧ vs !! k = Some v)
        (HexBlock.vnames b) ks ∧
      format_index (vertex_objs w') (registry w') (HexBlock.vnames b)
      = Ok (str_join " " (pretty <$> ks)) ∧
      ∀ c0 c1 c2 cells gs s0 s1 s2,
        HexBlock.cells b = c0 :: c1 :: c2 :: cells →
        SimpleGrading_format format_gs str_num (HexBlock.grading b) = Ok gs →
        format_d c0 = Ok s0 → format_d c1 = Ok s1 → format_d c2 = Ok s2 →
        HexBlock_format format_gs str_num format_d (vertex_objs w')
          (registry w') b
        = Ok ("hex (" +:+ str_join " " (pretty <$> ks) +:+ ") "
                +:+ HexBlock.name b
                +:+ " (" +:+ s0 +:+ " " +:+ s1 +:+ " " +:+ s2 +:+ ") "
                +:+ gs
                +:+ "  // " +:+ HexBlock.name b
                +:+ " (" +:+ str_join " " (HexBlock.vnames b) +:+ ")").
Proof.
  intros format_gs str_num format_d w w' vs b Hdist H Hvs Hb.
  destruct (assign_vertexid_state w w' H) as [Hreg Hblocks].
  destruct (assign_vertexid_with_bijection _ (@sorted_Permutation loc)
              w w' Hdist H) as (vs0 & Hvs0 & _ & Hin & Hidx).
  rewrite Hvs in Hvs0. injection Hvs0 as <-.
  destruct (assign_vertexid_with_Ok _ (@sorted_Permutation loc) w w' H)
    as (st & _ & Hg & _).
  apply gather_gathered in Hg as [_ _ Hdone _].
  rewrite Hblocks in Hb. rewrite Hreg.
  destruct (mapM_result_Forall2
              (λ vn,
                 v ← or_raise (KeyError vn) (registry w !! vn);
                 vobj ← or_raise Dangling (vertex_objs w' !! v);
                 Ok (Vertex.str_index (Vertex.index vobj)))
              (λ k : nat, pretty k)
              (λ n k, ∃ v, registry w !! n = Some v ∧ vs !! k = Some v)
              (HexBlock.vnames b)) as (ks & HF & Hmap).
  { intros n Hn.
    destruct (Hdone n) as (v & _ & Hnv & _).
    { apply elem_of_concat. exists (HexBlock.vnames b). split; [done|].
      apply list_elem_of_fmap. by exists b. }
    assert (Hv : v ∈ vs) by (apply Hin; by exists b, n).
    apply list_elem_of_lookup in Hv as [k Hk]. exists k.
    split; [by exists v|]. rewrite Hnv. simpl.
    specialize (Hidx k v Hk). unfold index_at in Hidx.
    destruct (vertex_objs w' !! v) as [vobj|]; simpl in *; [|done].
    by rewrite Hidx. }
  exists ks. split; [done|].
  assert (Hindex : format_index (vertex_objs w') (registry w)
                     (HexBlock.vnames b)
                   = Ok (str_join " " (pretty <$> ks))).
  { unfold format_index. by rewrite Hmap. }
  split; [done|]. intros c0 c1 c2 cells gs s0 s1 s2 Hcells Hgs H0 H1 H2.
  unfold HexBlock_format. rewrite Hindex, Hcells, Hgs.
  rewrite (py_getitem_lookup (c0 :: c1 :: c2 :: cells) 0 c0 eq_refl
           : py_getitem _ 0%Z = _).
  rewrite (py_getitem_lookup (c0 :: c1 :: c2 :: cells) 1 c1 eq_refl
           : py_getitem _ 1%Z = _).
  rewrite (py_getitem_lookup (c0 :: c1 :: c2 :: cells) 2 c2 eq_refl
           : py_getitem _ 2%Z = _).
  simpl. rewrite H0. simpl. rewrite H1. simpl. by rewrite H2.
Qed.

Lemma block_indices_are_positions_witness :
  ∃ w w' vs b,
    unit_cube fresh_world = Ok (tt, w) ∧
    distinct_names w ∧
    assign_vertexid w = Ok (tt, w') ∧
    BlockMeshDict.valid_vertices (self w') = Some vs ∧
    b ∈ odict.values (BlockMeshDict.blocks (self w')) ∧
    ∃ ks : list nat,
      Forall2 (λ n k, ∃ v, registry w' !! n = Some v ∧ vs !! k = Some v)
        (HexBlock.vnames b) ks ∧
      format_index (vertex_objs w') (registry w') (HexBlock.vnames b)
      = Ok (str_join " " (pretty <$> ks)).
Proof.
  eexists _, _, _, _. split; [vm_compute; reflexivity|].
  match goal with |- distinct_names ?w ∧ _ =>
    assert (Hdist : distinct_names w) end.
  { apply store_names_distinct. apply (bool_decide_unpack _). by vm_compute. }
  split; [exact Hdist|].
  match goal with |- ?a = Ok (tt, _) ∧ _ =>
    assert (Hcall : a = Ok (tt, _)) by (vm_compute; reflexivity) end.
  split; [exact Hcall|]. split; [reflexivity|].
  match goal with |- ?b ∈ ?l ∧ _ =>
    assert (Hb : b ∈ l) by (simpl; apply list_elem_of_here) end.
  split; [exact Hb|].
  destruct (block_indices_are_positions (λ _, Ok "") (λ _, Ok "")
              (λ _, Ok "") _ _ _ _ Hdist Hcall eq_refl Hb)
    as (ks & HF & Hindex & _).
  exists ks. split; [exact HF | exact Hindex].
Defined.

Lemma format_index_lookup w n :
  store_ok w → is_Some (registry w !! n) →
  is_Ok (v ← or_raise (KeyError n) (registry w !! n);
         vobj ← or_raise Dangling (vertex_objs w !! v);
         Ok (Vertex.str_index (Vertex.index vobj))).
Proof.
  intros Hok [v Hn]. rewrite Hn. simpl.
  destruct (store_ok_registry _ _ _ Hok Hn) as [vobj ->]. by eexists.
Qed.

Lemma format_index_registered w ns :
  store_ok w → (∀ n, n ∈ ns → is_Some (registry w !! n)) →
  is_Ok (format_index (vertex_objs w) (registry w) ns).
Proof.
  intros Hok Hreg. unfold format_index.
  destruct (mapM_result_is_Ok
              (λ vn,
                 v ← or_raise (KeyError vn) (registry w !! vn);
                 vobj ← or_raise Dangling (vertex_objs w !! v);
                 Ok (Vertex.str_index (Vertex.index vobj))) ns)
    as [index ->]; [|by eexists].
  intros n Hn. by apply format_index_lookup, Hreg.
Qed.

Lemma format_index_first_missing w pre n post :
  store_ok w → (∀ m, m ∈ pre → is_Some (registry w !! m)) →
  registry w !! n = None →
  format_index (vertex_objs w) (registry w) (pre ++ n :: post)
  = Raise (KeyError n).
Proof.
  intros Hok Hreg Hn. unfold format_index.
  rewrite (mapM_result_first_error _ pre n post (KeyError n)); [done| |].
  - intros m Hm. by apply format_index_lookup, Hreg.
  - by rewrite Hn.
Qed.

(** X16: on a well-formed state [HexBlock.format] and [Face.format] raise
    [KeyError] with the first vertex name that is not registered; with all
    names registered [Face.format] returns, and [HexBlock.format] raises
    what rendering its grading raises; when the grading and the cell counts
    can be rendered it returns exactly when the block has at least three
    cell counts and raises [IndexError] otherwise.  Neither needs
    [assign_vertexid] to have run. *)
Theorem format_raises :
  ∀ (format_gs str_num : Q → result string) (format_d : Z → result string)
    (w : World),
    store_ok w →
    (∀ b pre n post,
       HexBlock.vnames b = pre ++ n :: post →
       (∀ m, m ∈ pre → is_Some (registry w !! m)) →
       registry w !! n = None →
       HexBlock_format format_gs str_num format_d (vertex_objs w)
         (registry w) b
       = Raise (KeyError n)) ∧
    (∀ b,
       (∀ n, n ∈ HexBlock.vnames b → is_Some (registry w !! n)) →
       (∀ e,
          SimpleGrading_format format_gs str_num (HexBlock.grading b)
          = Raise e →
          HexBlock_format format_gs str_num format_d (vertex_objs w)
            (registry w) b
          = Raise e) ∧
       (is_Ok (SimpleGrading_format format_gs str_num (HexBlock.grading b)) →
        (∀ c, c ∈ HexBlock.cells b → is_Ok (format_d c)) →
        (is_Ok (HexBlock_format format_gs str_num format_d (vertex_objs w)
                  (registry w) b)
         ↔ (3 ≤ length (HexBlock.cells b))%nat) ∧
        ((length (HexBlock.cells b) < 3)%nat →
         HexBlock_format format_gs str_num format_d (vertex_objs w)
           (registry w) b
         = Raise IndexError))) ∧
    (∀ f prj_geom pre n post,
       Face.vnames f = pre ++ n :: post →
       (∀ m, m ∈ pre → is_Some (registry w !! m)) →
       registry w !! n = None →
       Face_format (vertex_objs w) (registry w) f prj_geom
       = Raise (KeyError n)) ∧
    (∀ f prj_geom,
       (∀ n, n ∈ Face.vnames f → is_Some (registry w !! n)) →
       is_Ok (Face_format (vertex_objs w) (registry w) f prj_geom)).
Proof.
  intros format_gs str_num format_d w Hok. split; [|split; [|split]].
  - intros b pre n post Hvn Hreg Hn. unfold HexBlock_format.
    by rewrite Hvn, (format_index_first_missing w pre n post Hok Hreg Hn).
  - intros b Hreg. unfold HexBlock_format.
    destruct (format_index_registered w _ Hok Hreg) as [index ->]. simpl.
    split; [by intros e ->|]. intros [gs ->] Hcells. simpl.
    destruct (HexBlock.cells b) as [|c0 [|c1 [|c2 cells]]].
    + simpl. split; [split; [by intros [? ?] | lia] | done].
    + rewrite (py_getitem_lookup [c0] 0 c0 eq_refl
               : py_getitem _ 0%Z = _).
      simpl. destruct (Hcells c0) as [s0 ->]; [apply list_elem_of_here|].
      simpl. split; [split; [by intros [? ?] | lia] | done].
    + rewrite (py_getitem_lookup [c0; c1] 0 c0 eq_refl
               : py_getitem _ 0%Z = _).
      rewrite (py_getitem_lookup [c0; c1] 1 c1 eq_refl
               : py_getitem _ 1%Z = _).
      simpl. destruct (Hcells c0) as [s0 ->]; [apply list_elem_of_here|].
      simpl. destruct (Hcells c1) as [s1 ->];
        [apply list_elem_of_further, list_elem_of_here|].
      simpl. split; [split; [by intros [? ?] | lia] | done].
    + rewrite (py_getitem_lookup (c0 :: c1 :: c2 :: cells) 0 c0 eq_refl
               : py_getitem _ 0%Z = _).
      rewrite (py_getitem_lookup (c0 :: c1 :: c2 :: cells) 1 c1 eq_refl
               : py_getitem _ 1%Z = _).
      rewrite (py_getitem_lookup (c0 :: c1 :: c2 :: cells) 2 c2 eq_refl
               : py_getitem _ 2%Z = _).
      simpl. destruct (Hcells c0) as [s0 ->]; [apply list_elem_of_here|].
      simpl. destruct (Hcells c1) as [s1 ->];
        [apply list_elem_of_further, list_elem_of_here|].
      simpl. destruct (Hcells c2) as [s2 ->];
        [do 2 apply list_elem_of_further; apply list_elem_of_here|].
      simpl. split; [split; [lia | by eexists] | lia].
  - intros f prj_geom pre n post Hvn Hreg Hn. unfold Face_format.
    by rewrite Hvn, (format_index_first_missing w pre n post Hok Hreg Hn).
  - intros f prj_geom Hreg. unfold Face_format.
    destruct (format_index_registered w _ Hok Hreg) as [index ->].
    by eexists.
Qed.

Lemma format_raises_witness :
  let b := HexBlock.mk ["v0"; "v1"; "v2"; "v3"; "v4"; "v5"; "v6"; "v7"]
             [1; 1]%Z "b0" SimpleGrading.default in
  ∃ w, unit_cube fresh_world = Ok (tt, w) ∧ store_ok w ∧
       HexBlock_format (λ _, Ok "") (λ _, Ok "") (λ _, Ok "") (vertex_objs w)
         (registry w) b
       = Raise IndexError ∧
       Face_format (vertex_objs w) (registry w)
         (Face.mk ["v0"; "v9"; "v8"; "v3"] "f") ""
       = Raise (KeyError "v9").
Proof.
  intros b. eexists. split; [vm_compute; reflexivity|].
  match goal with |- store_ok ?w ∧ _ =>
    assert (Hok : store_ok w)
      by (apply (bool_decide_unpack _); by vm_compute) end.
  split; [exact Hok|].
  destruct (format_raises (λ _, Ok "") (λ _, Ok "") (λ _, Ok "") _ Hok)
    as (_ & Hblock & Hface & _).
  split.
  - apply (Hblock b); [|by eexists|by eexists|simpl; lia].
    intros n Hn. simpl in Hn.
    repeat (apply elem_of_cons in Hn as [-> | Hn]; [by eexists|]).
    by apply elem_of_nil in Hn.
  - apply (Hface (Face.mk ["v0"; "v9"; "v8"; "v3"] "f") ""
             ["v0"] "v9" ["v8"; "v3"]); [reflexivity| |reflexivity].
    intros m Hm.
    repeat (apply elem_of_cons in Hm as [-> | Hm]; [by eexists|]).
    by apply elem_of_nil in Hm.
Defined.

Lemma mapM_result_fmap {A B} (f : A → result B) (g : A → B) (l : list A) :
  (∀ a, a ∈ l → f a = Ok (g a)) → mapM f l = Ok (g <$> l).
Proof.
  induction l as [|a l IH]; intros H; simpl; [done|].
  rewrite (H a) by apply list_elem_of_here. simpl.
  rewrite IH; [done|]. intros x Hx. by apply H, list_elem_of_further.
Qed.

(** X17: a vertex name whose instance no block refers to and which had no
    index is still printed as [None] after [assign_vertexid]: an edge or a
    face on such vertices is written with [None] in place of numbers. *)
Theorem unreferenced_names_print_None :
  ∀ (w w' : World) (ns : list string),
    assign_vertexid w = Ok (tt, w') →
    (∀ n, n ∈ ns →
       ∃ v vobj, registry w !! n = Some v ∧ ¬ referenced w v ∧
                 vertex_objs w !! v = Some vobj ∧
                 Vertex.index vobj = None) →
    format_index (vertex_objs w') (registry w') ns
    = Ok (str_join " " ((λ _, "None") <$> ns)).
Proof.
  intros w w' ns H Hns.
  destruct (assign_vertexid_state w w' H) as [Hreg _]. rewrite Hreg.
  unfold format_index.
  rewrite (mapM_result_fmap _ (λ _, "None")); [done|].
  intros n (v & vobj & Hn & Hv & Hvobj & Hidx)%Hns. rewrite Hn. simpl.
  destruct (assign_vertexid_with_unreferenced _ (@sorted_Permutation loc)
              w w' v H Hv) as [-> _].
  rewrite Hvobj. simpl. by rewrite Hidx.
Qed.

Lemma unreferenced_names_print_None_witness :
  ∃ w w',
    unit_cube fresh_world = Ok (tt, w) ∧
    assign_vertexid w = Ok (tt, w') ∧
    format_index (vertex_objs w') (registry w') ["c"; "c"]
    = Ok (str_join " " ((λ _, "None") <$> ["c"; "c"])).
Proof.
  eexists _, _. split; [vm_compute; reflexivity|].
  match goal with |- ?a = Ok (tt, _) ∧ _ =>
    assert (Hcall : a = Ok (tt, _)) by (vm_compute; reflexivity) end.
  split; [exact Hcall|].
  apply (unreferenced_names_print_None _ _ ["c"; "c"] Hcall).
  clear Hcall. intros n Hn.
  assert (n = "c") as ->.
  { repeat (apply elem_of_cons in Hn as [-> | Hn]; [reflexivity|]).
    apply elem_of_nil in Hn. destruct Hn. }
  eexists 8, _. split; [reflexivity|]. split; [|split; reflexivity].
  intros (b & m & Hb & Hm & Hv). simpl in Hb.
  apply list_elem_of_singleton in Hb. subst b. simpl in Hm.
  repeat (apply elem_of_cons in Hm as [-> | Hm];
          [vm_compute in Hv; discriminate Hv|]).
  apply elem_of_nil in Hm. destruct Hm.
Defined.

(** ** [BlockMeshDict.format] *)


Lemma format_geometry_section_state format_g w s :
  fst <$> format_geometry_section format_g w = Ok s →
  format_geometry_section format_g w = Ok (s, w).
Proof.
  unfold format_geometry_section.
  destruct (mapM _ _); simpl; [|done]. by intros [= <-].
Qed.



Lemma format_vertices_section_state format_g set_iter w s :
  fst <$> format_vertices_section format_g set_iter w = Ok s →
  format_vertices_section format_g set_iter w = Ok (s, w).
Proof.
  unfold format_vertices_section.
  destruct (BlockMeshDict.valid_vertices (self w)); simpl; [|done].
  destruct (mapM _ _); simpl; [|done]. by intros [= <-].
Qed.

Lemma format_edges_section_state format_g format_f w s :
  fst <$> format_edges_section format_g format_f w = Ok s →
  format_edges_section format_g format_f w = Ok (s, w).
Proof.
  unfold format_edges_section.
  destruct (mapM _ _); simpl; [|done]. by intros [= <-].
Qed.

Lemma format_blocks_section_state format_gs str_num format_d w s :
  fst <$> format_blocks_section format_gs str_num format_d w = Ok s →
  format_blocks_section format_gs str_num format_d w = Ok (s, w).
Proof.
  unfold format_blocks_section.
  destruct (mapM _ _); simpl; [|done]. by intros [= <-].
Qed.

Lemma format_faces_section_state w s :
  fst <$> format_faces_section w = Ok s →
  format_faces_section w = Ok (s, w).
Proof.
  unfold format_faces_section.
  destruct (mapM _ _); simpl; [|done]. by intros [= <-].
Qed.

Lemma format_boundary_section_state w s :
  fst <$> format_boundary_section w = Ok s →
  format_boundary_section w = Ok (s, w).
Proof.
  unfold format_boundary_section.
  destruct (mapM _ _); simpl; [|done]. by intros [= <-].
Qed.

(** What [template.substitute] makes of any eight texts. *)
Lemma template_substitute_sections (m g v e b f bd mp : string) :
  Template_substitute template
    [ ("metricconvert", m); ("geometry", g); ("vertices", v); ("edges", e);
      ("blocks", b); ("faces", f); ("boundary", bd);
      ("mergepatchpairs", mp) ]
  = inr (template_head
           +:+ "convertToMeters " +:+ m +:+ ";" +:+ nl +:+ nl
           +:+ g +:+ nl +:+ nl
           +:+ v +:+ nl +:+ nl
           +:+ e +:+ nl +:+ nl
           +:+ b +:+ nl +:+ nl
           +:+ f +:+ nl +:+ nl
           +:+ bd +:+ nl +:+ nl
           +:+ mp +:+ nl +:+ nl
           +:+ template_foot).
Proof. vm_compute. reflexivity. Qed.

(** X19: when the unit scale can be rendered and the six sections return
    their texts, [format] returns the head of the template, the
    [convertToMeters] line, then the geometry,
    vertices, edges, blocks, faces, boundary and mergePatchPairs sections in
    this order, each followed by an empty line, and the closing line; the
    texts are inserted as they are, a [$] in a name is not read as a
    placeholder. *)
Theorem format_document_layout :
  ∀ (format_g : Q → result string) (set_iter : gset string → list string)
    (format_f format_gs str_num : Q → result string)
    (format_d : Z → result string) (w : World)
    (m g v e b f bd : string),
    str_num (BlockMeshDict.convert_to_meters (self w)) = Ok m →
    fst <$> format_geometry_section format_g w = Ok g →
    fst <$> format_vertices_section format_g set_iter w = Ok v →
    fst <$> format_edges_section format_g format_f w = Ok e →
    fst <$> format_blocks_section format_gs str_num format_d w = Ok b →
    fst <$> format_faces_section w = Ok f →
    fst <$> format_boundary_section w = Ok bd →
    format format_g set_iter format_f format_gs str_num format_d w
    = inr (template_head
             +:+ "convertToMeters " +:+ m +:+ ";" +:+ nl +:+ nl
             +:+ g +:+ nl +:+ nl
             +:+ v +:+ nl +:+ nl
             +:+ e +:+ nl +:+ nl
             +:+ b +:+ nl +:+ nl
             +:+ f +:+ nl +:+ nl
             +:+ bd +:+ nl +:+ nl
             +:+ "mergePatchPairs" +:+ nl +:+ "(" +:+ nl +:+ ");"
             +:+ nl +:+ nl
             +:+ template_foot).
Proof.
  intros format_g set_iter format_f format_gs str_num format_d w
    m g v e b f bd Hm Hg Hv He Hb Hf Hbd.
  unfold format, format_sections, M_bind, format_metricconvert.
  rewrite Hm. cbn -[format_geometry_section].
  rewrite (format_geometry_section_state _ _ _ Hg).
  rewrite (format_vertices_section_state _ _ _ _ Hv).
  rewrite (format_edges_section_state _ _ _ _ He).
  rewrite (format_blocks_section_state _ _ _ _ _ Hb).
  rewrite (format_faces_section_state _ _ Hf).
  rewrite (format_boundary_section_state _ _ Hbd).
  apply template_substitute_sections.
Qed.

Lemma format_document_layout_witness :
  ∃ w v,
    assign_vertexid fresh_world = Ok (tt, w) ∧
    fst <$> format_vertices_section (λ _, Ok "") elements w = Ok v ∧
    format (λ _, Ok "") elements (λ _, Ok "") (λ _, Ok "") (λ _, Ok "1")
      (λ _, Ok "") w
    = inr (template_head
             +:+ "convertToMeters " +:+ "1" +:+ ";" +:+ nl +:+ nl
             +:+ ("geometry" +:+ nl +:+ "{" +:+ nl +:+ "};") +:+ nl +:+ nl
             +:+ v +:+ nl +:+ nl
             +:+ ("edges" +:+ nl +:+ "(" +:+ nl +:+ ");") +:+ nl +:+ nl
             +:+ ("blocks" +:+ nl +:+ "(" +:+ nl +:+ ");") +:+ nl +:+ nl
             +:+ ("faces" +:+ nl +:+ "(" +:+ nl +:+ ");") +:+ nl +:+ nl
             +:+ ("boundary" +:+ nl +:+ "(" +:+ nl +:+ ");") +:+ nl +:+ nl
             +:+ "mergePatchPairs" +:+ nl +:+ "(" +:+ nl +:+ ");"
             +:+ nl +:+ nl
             +:+ template_foot).
Proof.
  eexists _, _. split; [reflexivity|]. split; [reflexivity|].
  apply (format_document_layout (λ _, Ok "") elements (λ _, Ok "")
           (λ _, Ok "") (λ _, Ok "1") (λ _, Ok "")); reflexivity.
Defined.

(** ** The boundary section *)

Lemma str_append_cons (x : ascii) (a b : string) :
  String x a +:+ b = String x (a +:+ b).
Proof. reflexivity. Qed.

Lemma str_append_assoc (a b c : string) : (a +:+ b) +:+ c = a +:+ (b +:+ c).
Proof.
  induction a as [|x a IH]; [reflexivity|].
  rewrite !str_append_cons. f_equal. exact IH.
Qed.

Lemma str_append_nil_r (a : string) : a +:+ "" = a.
Proof.
  induction a as [|x a IH]; [reflexivity|].
  rewrite str_append_cons. f_equal. exact IH.
Qed.

Lemma str_concat_cons (x : string) (l : list string) :
  String.concat "" (x :: l) = x +:+ String.concat "" l.
Proof. destruct l; simpl; [by rewrite str_append_nil_r | done]. Qed.

Lemma str_replace_char_app c new (a b : string) :
  str_replace_char c new (a +:+ b)
  = str_replace_char c new a +:+ str_replace_char c new b.
Proof.
  induction a as [|x a IH]; [reflexivity|].
  rewrite str_append_cons. simpl. case_decide.
  - rewrite IH. symmetry. apply str_append_assoc.
  - rewrite IH. by rewrite str_append_cons.
Qed.

Lemma str_replace_char_absent c new (s : string) :
  str_has_char c s = false → str_replace_char c new s = s.
Proof.
  induction s as [|x s IH]; simpl; [done|].
  intros [Hx Hs]%orb_false_iff. apply bool_decide_eq_false in Hx.
  rewrite decide_False by done. f_equal. by apply IH.
Qed.

Lemma str_replace_char_lines (ts : list string) :
  Forall (λ t, str_has_char nl_char t = false) ts →
  str_replace_char nl_char (nl +:+ "    ")
    (String.concat "" ((λ t, "        " +:+ t +:+ nl) <$> ts))
  = String.concat "" ((λ t, "        " +:+ t +:+ nl +:+ "    ") <$> ts).
Proof.
  induction 1 as [|t ts Ht Hts IH]; [reflexivity|].
  rewrite !fmap_cons, !str_concat_cons, !str_replace_char_app, IH.
  by rewrite (str_replace_char_absent _ _ t Ht).
Qed.

Lemma str_indent_shift (ts : list string) (rest : string) :
  "    " +:+ String.concat ""
                ((λ t, "        " +:+ t +:+ nl +:+ "    ") <$> ts) +:+ rest
  = String.concat "" ((λ t, "            " +:+ t +:+ nl) <$> ts)
      +:+ "    " +:+ rest.
Proof.
  induction ts as [|t ts IH]; [reflexivity|].
  rewrite !fmap_cons, !str_concat_cons, !str_append_assoc.
  rewrite <- IH. reflexivity.
Qed.

Lemma mapM_result_bind_Ok {A B C} (f : A → result B) (g : B → C)
    (l : list A) : ∀ ks : list B,
  mapM f l = Ok ks →
  mapM (λ a, s ← f a; Ok (g s)) l = Ok (g <$> ks).
Proof.
  induction l as [|a l IH]; intros ks; simpl.
  - by intros [= <-].
  - destruct (f a) as [b|]; simpl; [|done].
    destruct (mapM f l) as [k|]; simpl; [|done].
    intros [= <-]. by rewrite (IH k eq_refl).
Qed.

Lemma boundary_text_indented (name type_ : string) (ts : list string) :
  str_has_char nl_char name = false →
  str_has_char nl_char type_ = false →
  Forall (λ t, str_has_char nl_char t = false) ts →
  "    "
    +:+ str_replace_char nl_char (nl +:+ "    ")
          (name +:+ nl +:+ "{" +:+ nl +:+ "    type " +:+ type_ +:+ ";"
             +:+ nl +:+ "    faces" +:+ nl +:+ "    (" +:+ nl
             +:+ String.concat "" ((λ t, "        " +:+ t +:+ nl) <$> ts)
             +:+ "    );" +:+ nl +:+ "}")
    +:+ nl
  = "    " +:+ name +:+ nl
      +:+ "    {" +:+ nl
      +:+ "        type " +:+ type_ +:+ ";" +:+ nl
      +:+ "        faces" +:+ nl
      +:+ "        (" +:+ nl
      +:+ String.concat "" ((λ t, "            " +:+ t +:+ nl) <$> ts)
      +:+ "        );" +:+ nl
      +:+ "    }" +:+ nl.
Proof.
  intros Hname Htype Hts.
  rewrite !str_replace_char_app.
  rewrite (str_replace_char_absent _ _ name Hname),
    (str_replace_char_absent _ _ type_ Htype), (str_replace_char_lines ts Hts).
  assert (Hnl : str_replace_char nl_char (nl +:+ "    ") nl = nl +:+ "    ")
    by reflexivity.
  rewrite !Hnl.
  rewrite !(str_replace_char_absent nl_char _ "{" eq_refl),
    !(str_replace_char_absent nl_char _ "    type " eq_refl),
    !(str_replace_char_absent nl_char _ ";" eq_refl),
    !(str_replace_char_absent nl_char _ "    faces" eq_refl),
    !(str_replace_char_absent nl_char _ "    (" eq_refl),
    !(str_replace_char_absent nl_char _ "    );" eq_refl),
    !(str_replace_char_absent nl_char _ "}" eq_refl).
  rewrite !str_append_assoc. rewrite str_indent_shift. reflexivity.
Qed.

(** X20: the entry of a boundary in the boundary section is the text of
    [Boundary.format] with every line indented by four spaces: the name, the
    braces, the type, and each face on a line of its own, provided the name,
    the type and the face texts hold no newline. *)
Theorem boundary_entry_indented :
  ∀ (w : World) (b : Boundary.t) (fs : list Face.t) (ts : list string),
    list_objs w !! Boundary.faces b = Some fs →
    mapM (λ f, Face_format (vertex_objs w) (registry w) f "") fs = Ok ts →
    str_has_char nl_char (Boundary.name b) = false →
    str_has_char nl_char (Boundary.type_ b) = false →
    Forall (λ t, str_has_char nl_char t = false) ts →
    boundary_section_entry w b
    = Ok ("    " +:+ Boundary.name b +:+ nl
            +:+ "    {" +:+ nl
            +:+ "        type " +:+ Boundary.type_ b +:+ ";" +:+ nl
            +:+ "        faces" +:+ nl
            +:+ "        (" +:+ nl
            +:+ String.concat "" ((λ t, "            " +:+ t +:+ nl) <$> ts)
            +:+ "        );" +:+ nl
            +:+ "    }" +:+ nl).
Proof.
  intros w b fs ts Hfs Hts Hname Htype Hnl.
  unfold boundary_section_entry, Boundary_format. rewrite Hfs. simpl.
  rewrite (mapM_result_bind_Ok _ (λ s, "        " +:+ s +:+ nl) fs ts Hts).
  simpl. f_equal. by apply boundary_text_indented.
Qed.

Lemma boundary_entry_indented_witness :
  let b := Boundary.mk "wall" "walls" 0 in
  boundary_section_entry fresh_world b
  = Ok ("    " +:+ Boundary.name b +:+ nl
          +:+ "    {" +:+ nl
          +:+ "        type " +:+ Boundary.type_ b +:+ ";" +:+ nl
          +:+ "        faces" +:+ nl
          +:+ "        (" +:+ nl
          +:+ String.concat "" ((λ t, "            " +:+ t +:+ nl) <$> [])
          +:+ "        );" +:+ nl
          +:+ "    }" +:+ nl).
Proof.
  intros b.
  apply (boundary_entry_indented fresh_world b [] []);
    [reflexivity | reflexivity | reflexivity | reflexivity | constructor].
Defined.
